(** * NHL data pipeline: a shallow embedding of [source/nhl_data_pipeline.py]

    The pipeline has two phases.  [extract] discovers the page links of a
    paginated listing, fetches every page concurrently, pulls the rows out of
    each page's table and writes them to a workbook; [transform] reads that
    workbook back and derives, per year, the team with most and least wins.

    The development follows the source function by function.  Three things
    the source calls live outside the repository and are taken as they are
    documented: the HTML parser (a Section variable producing a parse tree),
    URL joining (a Section variable that may raise), and the network (the
    outcome of every request is an input of the run). *)

From Stdlib Require Import ZArith Lia Ascii String.
From stdpp Require Import base list gmap strings pretty.

Set Warnings "-register-all".

Local Open Scope string_scope.
Local Open Scope list_scope.

(** ** Exceptions

    Every function of the source wraps its body in [try: ... except Exception]
    and prints; which exception was raised is what gets printed. *)

Inductive exc : Type :=
| ClientError (msg : string)      (* aiohttp: the request did not complete *)
| KeyError                        (* missing attribute, key or sheet *)
| AttributeError                  (* method call on [None] *)
| TypeError                       (* unpacking [None]; comparing unlike cells *)
| ValueError                      (* [list.index] miss; [max] of nothing *)
| IndexError                      (* tuple index out of range *)
| UnboundLocalError               (* [page_num] read before any iteration *)
| FileNotFoundError.              (* workbook absent *)

(** Pure code that may raise. *)
Definition result (A : Type) : Type := exc + A.

Definition rbind {A B} (r : result A) (k : A -> result B) : result B :=
  match r with
  | inl e => inl e
  | inr a => k a
  end.

(** ** The parse tree, as BeautifulSoup exposes it *)

Module Soup.

(** A [Tag] carries its name, its attribute dictionary and its children; a
    [NavigableString] is a run of text. *)
Inductive node : Type :=
| Tag (name : string) (attrs : gmap string string) (contents : list node)
| NavigableString (text : string).

(** Everything below a node, in document order (what [find_all] walks). *)
Fixpoint descendants (n : node) : list node :=
  match n with
  | Tag _ _ cs =>
      (fix walk (l : list node) : list node :=
         match l with
         | [] => []
         | c :: l' => c :: descendants c ++ walk l'
         end) cs
  | NavigableString _ => []
  end.

(** [.text]: all strings below the node, concatenated. *)
Fixpoint get_text (n : node) : string :=
  match n with
  | NavigableString s => s
  | Tag _ _ cs =>
      (fix glue (l : list node) : string :=
         match l with
         | [] => ""
         | c :: l' => get_text c +:+ glue l'
         end) cs
  end.

Definition tag_name (n : node) : option string :=
  match n with
  | Tag nm _ _ => Some nm
  | NavigableString _ => None
  end.

(** [tag.get(key)]; a string has no attributes. *)
Definition get (key : string) (n : node) : option string :=
  match n with
  | Tag _ attrs _ => attrs !! key
  | NavigableString _ => None
  end.

(** [tag[key]] raises [KeyError] when the attribute is absent. *)
Definition getitem (key : string) (n : node) : result string :=
  match get key n with
  | Some v => inr v
  | None => inl KeyError
  end.

Definition named (nm : string) (n : node) : bool :=
  match tag_name n with
  | Some nm' => bool_decide (nm' = nm)
  | None => false
  end.

(** White space, as [str.isspace] and the pattern [\S+] see it. *)
Definition isspace (c : Ascii.ascii) : bool :=
  let k := nat_of_ascii c in
  ((9 <=? k)%nat && (k <=? 13)%nat) || ((28 <=? k)%nat && (k <=? 32)%nat).

(** The runs of characters that are not white space; [cur] is the run being
    read, last character first. *)
Fixpoint split_go (s : string) (cur : string) : list string :=
  match s with
  | EmptyString =>
      match cur with EmptyString => [] | _ => [String.rev cur] end
  | String c s' =>
      if isspace c
      then match cur with EmptyString => [] | _ => [String.rev cur] end
             ++ split_go s' EmptyString
      else split_go s' (String c cur)
  end.

Definition split (s : string) : list string := split_go s EmptyString.

(** [class_=c]: the class attribute is multi-valued, split on white space,
    and the filter matches when one of the values is [c]. *)
Definition has_class (c : string) (n : node) : bool :=
  match get "class" n with
  | Some v => bool_decide (c ∈ split v)
  | None => false
  end.

(** [attrs={key: False}]: the attribute must be absent. *)
Definition lacks (key : string) (n : node) : bool :=
  match get key n with
  | Some _ => false
  | None => true
  end.

Definition find_all (p : node -> bool) (n : node) : list node :=
  List.filter p (descendants n).

Definition find (p : node -> bool) (n : node) : option node :=
  head (find_all p n).

(** [str.strip()]: white space is removed at both ends. *)
Fixpoint lstrip (s : string) : string :=
  match s with
  | EmptyString => EmptyString
  | String c s' => if isspace c then lstrip s' else s
  end.

Definition strip (s : string) : string :=
  String.rev (lstrip (String.rev (lstrip s))).

(** [node.text.strip()] *)
Definition cell_text (n : node) : string := strip (get_text n).

End Soup.

(** ** The state of a run and its monad

    Row accumulators are Python lists, mutated in place and passed by
    reference: they live in [heap].  The two output files are part of the
    state, and so is everything printed.  Both sinks are taken to accept what
    they are handed. *)

Definition loc : Type := positive.
Definition row : Type := list string.

Inductive message : Type :=
| TotalPagesFound (page_urls : list string)
| AnErrorOccurred (e : exc)
| ExcelFileCreated
| Scraped (page_num : nat).

Record world : Type := World {
  heap : gmap loc (list row);
  stdout : list message;
  output_zip : option (list (string * string));   (* member name, content *)
  excel_file : option (list string * list row)    (* sheet 1: header, rows *)
}.

Definition set_heap (h : gmap loc (list row)) (w : world) : world :=
  World h (stdout w) (output_zip w) (excel_file w).
Definition set_stdout (o : list message) (w : world) : world :=
  World (heap w) o (output_zip w) (excel_file w).
Definition set_output_zip (z : option (list (string * string))) (w : world) : world :=
  World (heap w) (stdout w) z (excel_file w).
Definition set_excel_file (x : option (list string * list row)) (w : world) : world :=
  World (heap w) (stdout w) (output_zip w) x.

Definition M (A : Type) : Type := world -> world * result A.

#[export] Instance result_ret : MRet result := fun _ a => inr a.
#[export] Instance result_bind : MBind result := fun _ _ k r => rbind r k.

#[export] Instance M_ret : MRet M := fun _ a w => (w, inr a).
#[export] Instance M_bind : MBind M := fun _ _ k m w =>
  match m w with
  | (w', inl e) => (w', inl e)
  | (w', inr a) => k a w'
  end.

Definition raise {A} (e : exc) : M A := fun w => (w, inl e).

(** Pure code run inside the stateful one. *)
Definition lift {A} (r : result A) : M A := fun w => (w, r).

(** [try: body except Exception as exc: handler]; what [body] did to the
    state before raising stays done. *)
Definition try_except {A} (body : M A) (handler : exc -> M A) : M A := fun w =>
  match body w with
  | (w', inl e) => handler e w'
  | (w', inr a) => (w', inr a)
  end.

Definition print (m : message) : M unit := fun w =>
  (set_stdout (stdout w ++ [m]) w, inr tt).

(** [[]]: a fresh, empty list object. *)
Definition new_list : M loc := fun w =>
  let r := fresh (dom (heap w)) in
  (set_heap (<[r := []]> (heap w)) w, inr r).

(** [rows.append(cells)] *)
Definition list_append (r : loc) (cells : row) : M unit := fun w =>
  (set_heap (alter (fun l => l ++ [cells]) r (heap w)) w, inr tt).

(** The current content of a list object. *)
Definition deref (r : loc) (w : world) : list row := default [] (heap w !! r).

Fixpoint for_each {A} (l : list A) (body : A -> M unit) : M unit :=
  match l with
  | [] => mret tt
  | x :: l' => body x ;; for_each l' body
  end.

(** A list comprehension whose element expression may raise. *)
Fixpoint traverse {A B} (f : A -> result B) (l : list A) : result (list B) :=
  match l with
  | [] => inr []
  | x :: l' => y ← f x; ys ← traverse f l'; inr (y :: ys)
  end.

(** ** [asyncio.gather]

    Each task ends with a page or with an exception.  Tasks finish in some
    order; a finished task stores its page in its own slot, and the first
    task to finish with an exception makes [gather] raise it.  The order of
    completion is [schedule], followed, for the tasks it leaves out, by
    their order of creation. *)

Fixpoint gather_run (tasks : list (result string)) (order : list nat)
    (slots : list (option string)) : result (list (option string)) :=
  match order with
  | [] => inr slots
  | i :: order' =>
      match tasks !! i with
      | Some (inl e) => inl e
      | Some (inr html) => gather_run tasks order' (<[i := Some html]> slots)
      | None => gather_run tasks order' slots
      end
  end.

Definition gather (schedule : list nat) (tasks : list (result string)) :
    result (list string) :=
  let n := length tasks in
  slots ← gather_run tasks (schedule ++ seq 0 n) (replicate n None);
  inr (omap id slots).

(** ** The extract phase *)

Definition BASE_URL : string := "https://www.scrapethissite.com/pages/forms/".
Definition SHEET_1_NAME : string := "NHL Stats 1990-2011".
Definition SHEET_2_NAME : string := "Winner and Loser per Year".

Section Extract.

(** [BeautifulSoup(html, "html.parser")]: the parser accepts any text and
    returns the root of the tree. *)
Variable BeautifulSoup : string -> Soup.node.

(** [urllib.parse.urljoin]; it raises on a few ill-formed locators. *)
Variable urljoin : string -> string -> result string.

(** The network: how the [k]-th request of the run, made for [url], ends.
    Request 0 is the landing page; request [k] (from 1) is the page with
    sequence number [k]. *)
Variable net : nat -> string -> result string.

Definition fetch_page (k : nat) (url : string) : result string := net k url.

Definition is_pagination (n : Soup.node) : bool :=
  Soup.named "ul" n && Soup.has_class "pagination" n.

Definition is_page_link (n : Soup.node) : bool :=
  Soup.named "a" n && Soup.lacks "aria-label" n.

Definition is_table (n : Soup.node) : bool :=
  Soup.named "table" n && Soup.has_class "table" n.

Definition get_pages_url : M (list string) :=
  try_except
    (html ← lift (fetch_page 0 BASE_URL);
     let soup := BeautifulSoup html in
     match Soup.find is_pagination soup with
     | Some pagination =>
         lift (traverse (Soup.getitem "href")
                 (Soup.find_all is_page_link pagination))
     | None => mret []
     end)
    (fun e => print (AnErrorOccurred e) ;; mret []).

(** The cells of one table row. *)
Definition cells_of (tr : Soup.node) : row :=
  Soup.cell_text <$> Soup.find_all (Soup.named "td") tr.

(** [if cells: rows.append(cells)] *)
Definition keep_row (rows : loc) (tr : Soup.node) : M unit :=
  match cells_of tr with
  | [] => mret tt
  | cells => list_append rows cells
  end.

(** Returns [(rows, headers)], or [None] after printing when something
    raised; [table] is [None] when the page has no such table, and calling
    a method on it raises. *)
Definition get_html_table (html : string) (rows : loc) :
    M (option (loc * list string)) :=
  try_except
    (let soup := BeautifulSoup html in
     table ← lift (match Soup.find is_table soup with
                   | Some t => inr t
                   | None => inl AttributeError
                   end);
     let headers := Soup.cell_text <$> Soup.find_all (Soup.named "th") table in
     for_each (tail (Soup.find_all (Soup.named "tr") table)) (keep_row rows) ;;
     mret (Some (rows, headers)))
    (fun e => print (AnErrorOccurred e) ;; mret None).

(** The page goes into the archive under the name [<page_num>.html]. *)
Definition save_html_to_zip (html : string) (page_num : nat) : M unit := fun w =>
  (set_output_zip
     (Some (default [] (output_zip w) ++ [(pretty page_num +:+ ".html", html)])) w,
   inr tt).

Definition save_to_excel (rows : loc) (headers : list string) : M unit := fun w =>
  print ExcelFileCreated (set_excel_file (Some (headers, deref rows w)) w).

(** [zipfile.ZipFile(OUTPUT_ZIP, "w")]: a new, empty archive. *)
Definition open_zip : M unit := fun w => (set_output_zip (Some []) w, inr tt).

(** The local variables the page loop assigns. *)
Record locals : Type := Locals {
  rows : loc;
  headers : list string;
  page_num : option nat
}.

(** [for page_num, html in enumerate(results, start=1)]; unpacking the
    [None] that [get_html_table] returns after a failure raises. *)
Fixpoint page_loop (results : list string) (n : nat) (st : locals) : M locals :=
  match results with
  | [] => mret st
  | html :: results' =>
      r ← get_html_table html (rows st);
      match r with
      | None => raise TypeError
      | Some (rows', headers') =>
          save_html_to_zip html n ;;
          page_loop results' (S n) (Locals rows' headers' (Some n))
      end
  end.

Definition extract (schedule : list nat) : M unit :=
  try_except
    (page_urls ← get_pages_url;
     print (TotalPagesFound page_urls) ;;
     urls ← lift (traverse (urljoin BASE_URL) page_urls);
     let tasks := imap (fun i url => fetch_page (S i) url) urls in
     results ← lift (gather schedule tasks);
     rows0 ← new_list;
     open_zip ;;
     st ← page_loop results 1 (Locals rows0 [] None);
     save_to_excel (rows st) (headers st) ;;
     match page_num st with
     | Some n => print (Scraped n)
     | None => raise UnboundLocalError
     end)
    (fun e => print (AnErrorOccurred e)).

(** What a page contributes, in the words used to state properties: the
    rows of its table that have at least one cell, in document order, and
    its header cells. *)
Definition nonempty {A} (l : list A) : bool :=
  match l with [] => false | _ :: _ => true end.

Definition page_rows (table : Soup.node) : list row :=
  List.filter nonempty
    (cells_of <$> tail (Soup.find_all (Soup.named "tr") table)).

Definition page_header (table : Soup.node) : list string :=
  Soup.cell_text <$> Soup.find_all (Soup.named "th") table.

Definition rows_of_page (html : string) : list row :=
  match Soup.find is_table (BeautifulSoup html) with
  | Some table => page_rows table
  | None => []
  end.

Definition header_of_page (html : string) : list string :=
  match Soup.find is_table (BeautifulSoup html) with
  | Some table => page_header table
  | None => []
  end.

Definition parses (html : string) : Prop :=
  is_Some (Soup.find is_table (BeautifulSoup html)).

(** The links of the pagination control: the [href] of every [a] below
    the first [ul] of class [pagination] that carries no [aria-label], in
    document order; none without such a control. *)
Definition page_links (html : string) : list string :=
  match Soup.find is_pagination (BeautifulSoup html) with
  | Some pagination =>
      omap (Soup.get "href")
        (List.filter is_page_link (Soup.descendants pagination))
  | None => []
  end.

Definition links_have_href (html : string) : Prop :=
  match Soup.find is_pagination (BeautifulSoup html) with
  | Some pagination =>
      Forall (fun a => is_Some (Soup.get "href" a))
        (List.filter is_page_link (Soup.descendants pagination))
  | None => True
  end.

End Extract.

Definition empty_world : world := World ∅ [] None None.

(** ** The transform phase *)

(** What a worksheet cell holds once loaded.  [extract] writes text only;
    a workbook edited elsewhere, or a test, may hold numbers. *)
Inductive value : Type :=
| VNone
| VInt (z : Z)
| VStr (s : string).

#[export] Instance value_eq_dec : EqDecision value.
Proof. solve_decision. Defined.

(** [a > b] and [a < b]: numbers compare by size, text by code point, and
    anything else raises. *)
Definition py_gt (a b : value) : result bool :=
  match a, b with
  | VInt x, VInt y => inr (Z.ltb y x)
  | VStr s, VStr t => inr (String.ltb t s)
  | _, _ => inl TypeError
  end.

Definition py_lt (a b : value) : result bool := py_gt b a.

(** A [dict]: keys are unique and keep the order in which they were first
    inserted. *)
Section Dict.

Context {K V : Type} `{EqDecision K}.

Fixpoint dict_get (k : K) (d : list (K * V)) : option V :=
  match d with
  | [] => None
  | (k', v) :: d' => if decide (k' = k) then Some v else dict_get k d'
  end.

(** [d[k] = v]: an existing key keeps its place. *)
Fixpoint dict_set (k : K) (v : V) (d : list (K * V)) : list (K * V) :=
  match d with
  | [] => [(k, v)]
  | (k', v') :: d' =>
      if decide (k' = k) then (k', v) :: d' else (k', v') :: dict_set k v d'
  end.

End Dict.

Definition teams_t : Type := list (value * value).
Definition stats_t : Type := list (value * teams_t).

(** [header.index(name)] *)
Fixpoint index (x : value) (l : list value) : result nat :=
  match l with
  | [] => inl ValueError
  | y :: l' => if decide (y = x) then inr 0%nat else i ← index x l'; inr (S i)
  end.

(** [row[i]] *)
Definition item (r : list value) (i : nat) : result value :=
  match r !! i with
  | Some v => inr v
  | None => inl IndexError
  end.

(** The body of the row loop: [if year not in stats: stats[year] = {}] and
    then [stats[year][team] = wins]. *)
Definition record_row (stats : stats_t) (year team wins : value) : stats_t :=
  let stats1 :=
    match dict_get year stats with
    | None => dict_set year [] stats
    | Some _ => stats
    end in
  dict_set year (dict_set team wins (default [] (dict_get year stats1))) stats1.

Fixpoint process_rows (year_idx team_idx wins_idx : nat)
    (rows : list (list value)) (stats : stats_t) : result stats_t :=
  match rows with
  | [] => inr stats
  | r :: rows' =>
      year ← item r year_idx;
      team ← item r team_idx;
      wins ← item r wins_idx;
      process_rows year_idx team_idx wins_idx rows' (record_row stats year team wins)
  end.

(** [max(d, key=...)] and [min(d, key=...)]: the keys are visited in order
    and the running choice changes only on a strict improvement. *)
Fixpoint extremum (better : value -> value -> result bool)
    (key : value -> value) (ks : list value) (cur : value) : result value :=
  match ks with
  | [] => inr cur
  | k :: ks' =>
      b ← better (key k) (key cur);
      extremum better key ks' (if (b : bool) then k else cur)
  end.

Definition teams_get (teams : teams_t) (k : value) : value :=
  default VNone (dict_get k teams).

Definition teams_item (teams : teams_t) (k : value) : result value :=
  match dict_get k teams with
  | Some v => inr v
  | None => inl KeyError
  end.

Definition py_max (teams : teams_t) : result value :=
  match teams.*1 with
  | [] => inl ValueError
  | k :: ks => extremum py_gt (teams_get teams) ks k
  end.

Definition py_min (teams : teams_t) : result value :=
  match teams.*1 with
  | [] => inl ValueError
  | k :: ks => extremum py_lt (teams_get teams) ks k
  end.

Definition sheet_2_header : list value :=
  [VStr "Year"; VStr "Winner"; VStr "Winner Num. of Wins";
   VStr "Loser"; VStr "Loser Num. of Wins"].

(** The body of [for year, teams in stats.items()]: the row appended for
    one year. *)
Definition summary_row (g : value * teams_t) : result (list value) :=
  let '(year, teams) := g in
  winner ← py_max teams;
  loser ← py_min teams;
  wv ← teams_item teams winner;
  lv ← teams_item teams loser;
  inr [year; winner; wv; loser; lv].

Definition winners_and_losers (stats : stats_t) : result (list (list value)) :=
  traverse summary_row stats.

(** The rows of the second sheet, computed from the first: [ws[1]] is the
    header and the other rows are the data. *)
Definition summary (ws : list (list value)) : result (list (list value)) :=
  let header := hd [] ws in
  year_idx ← index (VStr "Year") header;
  team_idx ← index (VStr "Team Name") header;
  wins_idx ← index (VStr "Wins") header;
  stats ← process_rows year_idx team_idx wins_idx (tl ws) [];
  out ← winners_and_losers stats;
  inr (sheet_2_header :: out).

(** A workbook file: its sheets by name, in order. *)
Definition workbook : Type := list (string * list (list value)).

Inductive notice : Type :=
| SheetCreated
| ErrorOccurred (e : exc).

(** [transform]: the file on disk before, the file after and what is
    printed.  On any exception nothing is saved. *)
Definition transform (file : option workbook) : option workbook * notice :=
  let run : result workbook :=
    wb ← match file with Some wb => inr wb | None => inl FileNotFoundError end;
    ws ← match dict_get SHEET_1_NAME wb with Some ws => inr ws | None => inl KeyError end;
    sheet_2 ← summary ws;
    inr (List.filter (fun s : string * list (list value) =>
                        negb (bool_decide (s.1 = SHEET_2_NAME))) wb
           ++ [(SHEET_2_NAME, sheet_2)]) in
  match run with
  | inr wb' => (Some wb', SheetCreated)
  | inl e => (file, ErrorOccurred e)
  end.

(** ** Vocabulary for stating the properties of the aggregation *)

(** The (year, team, wins) cells of a data row, when the row is wide enough. *)
Definition triple (yi ti wi : nat) (r : list value) : option (value * value * value) :=
  y ← r !! yi; t ← r !! ti; w ← r !! wi; Some (y, t, w).

Definition triples (yi ti wi : nat) (rows : list (list value)) :
    option (list (value * value * value)) :=
  mapM (triple yi ti wi) rows.

Definition year_of (t : value * value * value) : value := t.1.1.
Definition team_of (t : value * value * value) : value := t.1.2.
Definition wins_of (t : value * value * value) : value := t.2.

(** The distinct elements of a list, each at the place of its first
    occurrence. *)
Fixpoint first_seen (l : list value) : list value :=
  match l with
  | [] => []
  | x :: l' => x :: List.filter (fun y => negb (bool_decide (y = x))) (first_seen l')
  end.

(** The (team, wins) pairs of the rows of one year, in row order. *)
Definition group_of (year : value) (ts : list (value * value * value)) :
    list (value * value) :=
  (fun t => (team_of t, wins_of t)) <$>
    List.filter (fun t => bool_decide (year_of t = year)) ts.

(** The wins of the last row of that year and team, if there is one. *)
Definition last_wins (year team : value) (ts : list (value * value * value)) :
    option value :=
  last (wins_of <$>
          List.filter (fun t => bool_decide (year_of t = year) &&
                                bool_decide (team_of t = team)) ts).

(** Decimal numerals. *)
Definition digit_of (c : Ascii.ascii) : option Z :=
  let k := Z.of_N (Ascii.N_of_ascii c) in
  if (48 <=? k)%Z && (k <=? 57)%Z then Some (k - 48)%Z else None.

Fixpoint all_digits (s : string) : bool :=
  match s with
  | EmptyString => true
  | String c s' => bool_decide (is_Some (digit_of c)) && all_digits s'
  end.

(** The number a string of digits denotes, most significant digit first. *)
Fixpoint dval (s : string) : Z :=
  match s with
  | EmptyString => 0
  | String c s' => default 0%Z (digit_of c) * 10 ^ Z.of_nat (String.length s') + dval s'
  end.

(** A cell read as an integer: a stored number, or text made of an optional
    sign and at least one digit. *)
Definition parse_int (v : value) : option Z :=
  match v with
  | VInt z => Some z
  | VStr (String "-" s) =>
      if all_digits s && negb (bool_decide (s = "")) then Some (- dval s)%Z else None
  | VStr (String "+" s) =>
      if all_digits s && negb (bool_decide (s = "")) then Some (dval s) else None
  | VStr s =>
      if all_digits s && negb (bool_decide (s = "")) then Some (dval s) else None
  | VNone => None
  end.

(** The numeric reading used in statements; cells that are not numbers
    read as 0. *)
Definition num (v : value) : Z := default 0%Z (parse_int v).

Definition is_int (v : value) : bool :=
  match v with VInt _ => true | _ => false end.

Definition is_str (v : value) : bool :=
  match v with VStr _ => true | _ => false end.

(** Text of exactly [n] digits, [n] at least 1. *)
Definition is_numeral (n : nat) (v : value) : bool :=
  match v with
  | VStr s => all_digits s && bool_decide (String.length s = n) && negb (bool_decide (n = 0%nat))
  | _ => false
  end.

(** A value column the source compares by number: every cell a stored
    integer, or every cell a numeral of one common width. *)
Definition numeric_column (vs : list value) : Prop :=
  Forall (fun v => is_int v = true) vs \/
  exists n, Forall (fun v => is_numeral n v = true) vs.

(** Follows the spec's words (section 4.5): a mapping from group key to the
    list of (label, value) pairs seen for that key, groups and entries in
    first-seen order; values parsed as integers, one failure being fatal;
    the winner is the first pair of maximum value and the loser the first
    pair of minimum value. *)
Definition spec_groups (ts : list (value * value * value)) :
    list (value * list (value * value)) :=
  (fun y => (y, group_of y ts)) <$> first_seen (year_of <$> ts).

Definition spec_winner (ps : list (value * value)) : option (value * value) :=
  List.find (fun p => forallb (fun q => (num q.2 <=? num p.2)%Z) ps) ps.

Definition spec_loser (ps : list (value * value)) : option (value * value) :=
  List.find (fun p => forallb (fun q => (num p.2 <=? num q.2)%Z) ps) ps.

Definition spec_row (g : value * list (value * value)) : option (list value) :=
  w ← spec_winner g.2; l ← spec_loser g.2; Some [g.1; w.1; w.2; l.1; l.2].

Definition spec_aggregate (ts : list (value * value * value)) :
    option (list (list value)) :=
  _ ← mapM (fun t => parse_int (wins_of t)) ts;
  mapM spec_row (spec_groups ts).

(** [l = l1 ++ r :: l2] with everything before [r] strictly below it and
    nothing after it above it: [r] is the first element of greatest [f]. *)
Definition first_greatest {A} (f : A -> Z) (l : list A) (r : A) : Prop :=
  exists l1 l2, l = l1 ++ r :: l2 /\
    Forall (fun x => (f x < f r)%Z) l1 /\ Forall (fun x => (f x <= f r)%Z) l2.

(** The dictionary a sequence of assignments [d[k] = v] builds. *)
Definition dict_of (ps : list (value * value)) : teams_t :=
  fold_left (fun d p => dict_set p.1 p.2 d) ps [].

(** The [stats] dictionary once the row loop has run over the triples. *)
Definition build (ts : list (value * value * value)) : stats_t :=
  fold_left (fun st t => record_row st (year_of t) (team_of t) (wins_of t)) ts [].

(** The (year, team, wins) triples of a sheet whose header names the three
    columns and whose rows all reach them. *)
Definition read_sheet (ws : list (list value)) : result (list (value * value * value)) :=
  let header := hd [] ws in
  yi ← index (VStr "Year") header;
  ti ← index (VStr "Team Name") header;
  wi ← index (VStr "Wins") header;
  match triples yi ti wi (tl ws) with
  | Some ts => inr ts
  | None => inl IndexError
  end.

(** Sheets used as examples. *)
Module Fixture.

Definition header3 : list value := [VStr "Year"; VStr "Team Name"; VStr "Wins"].

Definition int_row (y : Z) (team : string) (w : Z) : list value :=
  [VInt y; VStr team; VInt w].

Definition text_row (y team w : string) : list value :=
  [VStr y; VStr team; VStr w].

(** What [extract] writes: text only, the wins two digits wide. *)
Definition sheet_nhl : list (list value) :=
  [header3;
   text_row "1990" "Boston Bruins" "44";
   text_row "1990" "Buffalo Sabres" "31";
   text_row "1991" "Calgary Flames" "31";
   text_row "1990" "Chicago Blackhawks" "49";
   text_row "1991" "Detroit Red Wings" "43"].

(** The same team twice in one year. *)
Definition sheet_repeat : list (list value) :=
  [header3; int_row 1990 "A" 9; int_row 1990 "B" 5; int_row 1990 "A" 3].

(** A repeated team ending level with another one. *)
Definition sheet_level : list (list value) :=
  [header3; int_row 1990 "A" 5; int_row 1990 "B" 7; int_row 1990 "A" 7].

(** A wins cell that is not a number. *)
Definition sheet_text : list (list value) :=
  [header3; text_row "1990" "A" "abc"; text_row "1990" "B" "7"].

(** Wins written with one and with two digits. *)
Definition sheet_widths : list (list value) :=
  [header3; text_row "1990" "A" "9"; text_row "1990" "B" "10"].

(** The triples of a sheet that can be read. *)
Definition rows_of (ws : list (list value)) : list (value * value * value) :=
  match read_sheet ws with
  | inr ts => ts
  | inl _ => []
  end.

End Fixture.

(** Slots agree with the pages: a filled slot holds the page of its task. *)
Definition slots_agree (slots : list (option string)) (pages : list string) : Prop :=
  length slots = length pages /\
  forall i p, slots !! i = Some (Some p) -> pages !! i = Some p.

(** Pages used as examples: a landing page that links three pages, and
    three pages with one table each. *)
Module Site.

Import Soup.

Definition text_in (tag : string) (s : string) : node :=
  Tag tag ∅ [NavigableString s].

Definition header_row (cells : list string) : node :=
  Tag "tr" ∅ (text_in "th" <$> cells).

Definition data_row (cells : list string) : node :=
  Tag "tr" ∅ (text_in "td" <$> cells).

Definition document (body : list node) : node :=
  Tag "[document]" ∅ [Tag "html" ∅ body].

Definition table_of (header : list string) (rows : list (list string)) : node :=
  Tag "table" {["class" := "table"]} (header_row header :: (data_row <$> rows)).

Definition table_page (header : list string) (rows : list (list string)) : node :=
  document [table_of header rows].

Definition link (href : string) : node :=
  Tag "li" ∅ [Tag "a" {["href" := href]} [NavigableString href]].

Definition next_link : node :=
  Tag "li" ∅ [Tag "a" (<["aria-label" := "Next"]> {["href" := "?page_num=2"]})
                [NavigableString ">>"]].

Definition landing : node :=
  document [Tag "ul" {["class" := "pagination"]}
              (link "p1" :: link "p2" :: link "p3" :: [next_link])].

(** A control one of whose links has no [href]. *)
Definition landing_bare_anchor : node :=
  document [Tag "ul" {["class" := "pagination"]}
              [link "p1"; Tag "li" ∅ [Tag "a" ∅ [NavigableString "2"]]]].

Definition page1 : node :=
  table_page ["Team"; "Wins"] [["Boston Bruins"; "44"]; []; ["Buffalo Sabres"; "31"]].
Definition page2 : node :=
  table_page ["Name"; "W"] [["Calgary Flames"; "46"]].
Definition page3 : node :=
  table_page ["Team Name"; "Wins"] [["Chicago Blackhawks"; "49"]].

(** The parser on the texts of the example site. *)
Definition parser (html : string) : node :=
  if bool_decide (html = "landing") then landing
  else if bool_decide (html = "bare") then landing_bare_anchor
  else if bool_decide (html = "p1") then page1
  else if bool_decide (html = "p2") then page2
  else if bool_decide (html = "p3") then page3
  else document [].

(** Joining keeps the locator of the page as it is. *)
Definition join (base url : string) : result string := inr url.

(** Every request is answered: the landing page by its text, a page by
    the text named after its locator. *)
Definition net_up (k : nat) (url : string) : result string :=
  if bool_decide (url = BASE_URL) then inr "landing"
  else inr url.

(** The same, with the second page unreachable. *)
Definition net_page2_down (k : nat) (url : string) : result string :=
  if bool_decide (k = 2%nat) then inl (ClientError "page 2") else net_up k url.

(** Nothing answers. *)
Definition net_down (k : nat) (url : string) : result string :=
  inl (ClientError "unreachable").

(** The landing page has a bare anchor. *)
Definition net_bare (k : nat) (url : string) : result string :=
  if bool_decide (url = BASE_URL) then inr "bare" else net_up k url.

End Site.

(** ** Vocabulary for further properties *)

(** The members the archive gets for the pages, numbered from [first]. *)
Definition archive_of (first : nat) (pages : list string) : list (string * string) :=
  imap (fun i html => (pretty (first + i)%nat +:+ ".html", html)) pages.

(** What [extract] does once the pages are fetched. *)
Definition after_fetch (BeautifulSoup : string -> Soup.node) (pages : list string) :
    M unit :=
  rows0 ← new_list;
  open_zip ;;
  st ← page_loop BeautifulSoup pages 1 (Locals rows0 [] None);
  save_to_excel (rows st) (headers st) ;;
  match page_num st with
  | Some n => print (Scraped n)
  | None => raise UnboundLocalError
  end.

(** Cells that [>] and [<] accept together: two numbers, or two texts. *)
Definition same_kind (a b : value) : bool :=
  (is_int a && is_int b) || (is_str a && is_str b).

(** A group whose wins can be compared with one another: a single entry, or
    numbers only, or texts only. *)
Definition comparable (teams : teams_t) : bool :=
  match teams.*2 with
  | [] => true
  | v :: vs => forallb (same_kind v) vs
  end.

(** Further examples. *)
Module More.

(** The second page is fetched and has no table. *)
Definition net_page2_blank (k : nat) (url : string) : result string :=
  if bool_decide (k = 2%nat) then inr "blank" else Site.net_up k url.

(** The second locator cannot be joined. *)
Definition join_p2_bad (base url : string) : result string :=
  if bool_decide (url = "p2") then inl ValueError else inr url.

(** The landing page has no pagination control. *)
Definition net_plain (k : nat) (url : string) : result string := inr "plain".

(** The columns in another order, with one more column. *)
Definition sheet_reordered : list (list value) :=
  [[VStr "Wins"; VStr "Losses"; VStr "Team Name"; VStr "Year"];
   [VStr "44"; VStr "24"; VStr "Boston Bruins"; VStr "1990"];
   [VStr "31"; VStr "30"; VStr "Buffalo Sabres"; VStr "1990"]].

Definition sheet_plain : list (list value) :=
  [Fixture.header3;
   Fixture.text_row "1990" "Boston Bruins" "44";
   Fixture.text_row "1990" "Buffalo Sabres" "31"].

(** No column named [Wins]. *)
Definition sheet_no_wins : list (list value) :=
  [[VStr "Year"; VStr "Team Name"; VStr "W"];
   Fixture.text_row "1990" "Boston Bruins" "44"].


(** A year with a number and a text. *)
Definition teams_mixed : teams_t :=
  [(VStr "Boston Bruins", VInt 44); (VStr "Buffalo Sabres", VStr "31")].


End More.

(** * Properties *)

(** ** Insertion-ordered dictionaries *)

Section DictFacts.

Context {K V : Type} `{EqDecision K}.
Implicit Types (d : list (K * V)) (k : K) (v : V).

Lemma dict_get_None k d : dict_get k d = None <-> k ∉ d.*1.
Proof.
  induction d as [|[k' v'] d IH]; simpl.
  - split; [intros _; apply not_elem_of_nil | done].
  - rewrite not_elem_of_cons. destruct (decide (k' = k)) as [->|Hne].
    + split; [done | intros [? _]; done].
    + rewrite IH. split; [intros ?; split; [congruence | done] | intros [_ ?]; done].
Qed.

Lemma dict_get_Some_elem k v d : dict_get k d = Some v -> (k, v) ∈ d.
Proof.
  induction d as [|[k' v'] d IH]; simpl; [done |].
  destruct (decide (k' = k)) as [->|Hne].
  - intros [= ->]. apply list_elem_of_here.
  - intros Hg. apply list_elem_of_further. auto.
Qed.

Lemma dict_get_NoDup k v d : NoDup d.*1 -> (k, v) ∈ d -> dict_get k d = Some v.
Proof.
  induction d as [|[k' v'] d IH]; simpl; intros Hnd Hin.
  - by apply elem_of_nil in Hin.
  - apply NoDup_cons in Hnd as [Hk Hnd].
    apply elem_of_cons in Hin as [[= <- <-]|Hin].
    + by rewrite decide_True.
    + rewrite decide_False; [auto |].
      intros ->. apply Hk. apply (list_elem_of_fmap_2 fst) in Hin. exact Hin.
Qed.

Lemma dict_get_set_eq k v d : dict_get k (dict_set k v d) = Some v.
Proof.
  induction d as [|[k' v'] d IH]; simpl.
  - by rewrite decide_True.
  - destruct (decide (k' = k)) as [->|Hne]; simpl.
    + by rewrite decide_True.
    + by rewrite decide_False.
Qed.

Lemma dict_get_set_ne k k' v d : k ≠ k' -> dict_get k' (dict_set k v d) = dict_get k' d.
Proof.
  intros Hne. induction d as [|[k0 v0] d IH]; simpl.
  - by rewrite decide_False.
  - destruct (decide (k0 = k)) as [->|Hne0]; simpl.
    + by rewrite !decide_False.
    + by rewrite IH.
Qed.

(** Assigning to a key that is there leaves the keys and their order. *)
Lemma dict_set_keys_in k v d : k ∈ d.*1 -> (dict_set k v d).*1 = d.*1.
Proof.
  induction d as [|[k0 v0] d IH]; simpl; intros Hin.
  - by apply elem_of_nil in Hin.
  - destruct (decide (k0 = k)) as [->|Hne]; simpl; [done |].
    f_equal. apply IH. apply elem_of_cons in Hin as [?|?]; [congruence | done].
Qed.

(** Assigning to a new key appends it. *)
Lemma dict_set_new k v d : k ∉ d.*1 -> dict_set k v d = d ++ [(k, v)].
Proof.
  induction d as [|[k0 v0] d IH]; simpl; intros Hin; [done |].
  apply not_elem_of_cons in Hin as [Hne Hin].
  rewrite decide_False by congruence. by rewrite IH.
Qed.

Lemma dict_set_last k v v0 d : k ∉ d.*1 -> dict_set k v (d ++ [(k, v0)]) = d ++ [(k, v)].
Proof.
  induction d as [|[k1 v1] d IH]; simpl; intros Hin.
  - by rewrite decide_True.
  - apply not_elem_of_cons in Hin as [Hne Hin].
    rewrite decide_False by congruence. by rewrite IH.
Qed.

Lemma dict_get_app_last k v d : k ∉ d.*1 -> dict_get k (d ++ [(k, v)]) = Some v.
Proof.
  induction d as [|[k1 v1] d IH]; simpl; intros Hin.
  - by rewrite decide_True.
  - apply not_elem_of_cons in Hin as [Hne Hin].
    rewrite decide_False by congruence. auto.
Qed.

Lemma tabulate_keys (f : K -> V) (ks : list K) : ((fun x => (x, f x)) <$> ks).*1 = ks.
Proof. induction ks as [|x ks IH]; [done |]. rewrite !fmap_cons, IH. done. Qed.

(** A dictionary given by a function on a duplicate-free list of keys. *)
Lemma dict_get_tabulate (f : K -> V) (ks : list K) k :
  dict_get k ((fun x => (x, f x)) <$> ks) = if decide (k ∈ ks) then Some (f k) else None.
Proof.
  induction ks as [|x ks IH].
  - rewrite decide_False; [done | apply not_elem_of_nil].
  - rewrite fmap_cons. cbn [dict_get]. rewrite IH.
    destruct (decide (x = k)) as [->|Hne].
    + rewrite decide_True; [done | apply list_elem_of_here].
    + destruct (decide (k ∈ ks)) as [Hin|Hin].
      * rewrite decide_True; [done | by apply list_elem_of_further].
      * rewrite decide_False; [done |].
        rewrite not_elem_of_cons. split; [congruence | done].
Qed.

Lemma dict_set_tabulate (f : K -> V) (ks : list K) k v :
  k ∈ ks -> NoDup ks ->
  dict_set k v ((fun x => (x, f x)) <$> ks)
  = (fun x => (x, if decide (x = k) then v else f x)) <$> ks.
Proof.
  induction ks as [|x ks IH]; simpl; intros Hin Hnd.
  - by apply elem_of_nil in Hin.
  - apply NoDup_cons in Hnd as [Hx Hnd].
    destruct (decide (x = k)) as [->|Hne].
    + f_equal. apply list_fmap_ext. intros i y Hy.
      rewrite decide_False; [done |].
      intros ->. apply Hx. by eapply list_elem_of_lookup_2.
    + f_equal. apply IH; [| done].
      apply elem_of_cons in Hin as [?|?]; [congruence | done].
Qed.

End DictFacts.

(** ** First-seen order *)

Lemma elem_of_first_seen x l : x ∈ first_seen l <-> x ∈ l.
Proof.
  induction l as [|a l IH]; simpl; [done |].
  rewrite !elem_of_cons, <- IH, list_elem_of_In, filter_In, <- list_elem_of_In.
  destruct (decide (x = a)) as [->|Hne]; [tauto |].
  rewrite negb_true_iff, bool_decide_eq_false. tauto.
Qed.

Lemma NoDup_filter_bool {A} (p : A -> bool) (l : list A) : NoDup l -> NoDup (List.filter p l).
Proof.
  induction 1 as [|x l Hx Hnd IH]; simpl; [constructor |].
  destruct (p x); [| done].
  constructor; [| done].
  rewrite list_elem_of_In, filter_In, <- list_elem_of_In. tauto.
Qed.

Lemma NoDup_first_seen l : NoDup (first_seen l).
Proof.
  induction l as [|a l IH]; simpl; constructor.
  - rewrite list_elem_of_In, filter_In. intros [_ Hf].
    rewrite negb_true_iff, bool_decide_eq_false in Hf. done.
  - by apply NoDup_filter_bool.
Qed.

(** A further element goes to the end, unless it was seen before. *)
Lemma first_seen_snoc l x :
  first_seen (l ++ [x]) = if decide (x ∈ l) then first_seen l else first_seen l ++ [x].
Proof.
  induction l as [|a l IH].
  - rewrite decide_False; [done | apply not_elem_of_nil].
  - rewrite <- app_comm_cons. cbn [first_seen].
    rewrite IH. destruct (decide (x ∈ l)) as [Hin|Hin].
    + rewrite decide_True; [done | by apply list_elem_of_further].
    + rewrite List.filter_app. simpl.
      destruct (decide (x = a)) as [->|Hne].
      * rewrite bool_decide_eq_true_2 by done. simpl.
        rewrite decide_True; [by rewrite app_nil_r | apply list_elem_of_here].
      * rewrite bool_decide_eq_false_2 by done. simpl.
        rewrite decide_False; [done |].
        rewrite not_elem_of_cons. done.
Qed.

(** ** The dictionary of one group *)

Lemma dict_of_snoc ps p : dict_of (ps ++ [p]) = dict_set p.1 p.2 (dict_of ps).
Proof. unfold dict_of. by rewrite fold_left_app. Qed.

Lemma dict_of_keys ps : (dict_of ps).*1 = first_seen ps.*1.
Proof.
  induction ps as [|p ps IH] using rev_ind; [done |].
  rewrite dict_of_snoc, fmap_app. simpl. rewrite first_seen_snoc.
  destruct (decide (p.1 ∈ ps.*1)) as [Hin|Hin].
  - rewrite dict_set_keys_in; [done |]. by rewrite IH, elem_of_first_seen.
  - rewrite dict_set_new; [by rewrite fmap_app, IH |].
    by rewrite IH, elem_of_first_seen.
Qed.

Lemma dict_of_NoDup ps : NoDup (dict_of ps).*1.
Proof. rewrite dict_of_keys. apply NoDup_first_seen. Qed.

(** Looking a key up gives the value of its last assignment. *)
Lemma dict_of_get ps k :
  dict_get k (dict_of ps)
  = last (snd <$> List.filter (fun p : value * value => bool_decide (p.1 = k)) ps).
Proof.
  induction ps as [|p ps IH] using rev_ind; [done |].
  rewrite dict_of_snoc, List.filter_app, fmap_app. simpl.
  destruct (decide (p.1 = k)) as [<-|Hne].
  - rewrite dict_get_set_eq, bool_decide_eq_true_2 by done. simpl.
    by rewrite last_snoc.
  - rewrite dict_get_set_ne, bool_decide_eq_false_2 by done. simpl.
    by rewrite app_nil_r.
Qed.

(** Without a repeated key the dictionary is the list of assignments. *)
Lemma dict_of_NoDup_id ps : NoDup ps.*1 -> dict_of ps = ps.
Proof.
  induction ps as [|p ps IH] using rev_ind; [done |].
  rewrite fmap_app. simpl. intros Hnd.
  apply NoDup_app in Hnd as (Hnd & Hp & _).
  rewrite dict_of_snoc, IH by done.
  rewrite dict_set_new; [by destruct p |].
  intros Hin. apply (Hp _ Hin). apply list_elem_of_here.
Qed.

(** ** The [stats] dictionary *)

Lemma group_of_snoc y ts t :
  group_of y (ts ++ [t])
  = group_of y ts ++ (if decide (year_of t = y) then [(team_of t, wins_of t)] else []).
Proof.
  unfold group_of. rewrite List.filter_app, fmap_app. simpl.
  destruct (decide (year_of t = y)).
  - by rewrite bool_decide_eq_true_2.
  - by rewrite bool_decide_eq_false_2.
Qed.

Lemma group_of_absent y ts : y ∉ year_of <$> ts -> group_of y ts = [].
Proof.
  intros Hy. unfold group_of.
  induction ts as [|t ts IH]; simpl; [done |].
  rewrite fmap_cons, not_elem_of_cons in Hy. destruct Hy as [Hne Hy].
  rewrite bool_decide_eq_false_2 by congruence. auto.
Qed.

Lemma build_snoc ts t :
  build (ts ++ [t]) = record_row (build ts) (year_of t) (team_of t) (wins_of t).
Proof. unfold build. by rewrite fold_left_app. Qed.

(** The groups are the distinct years in first-seen order, and each holds
    the dictionary its rows build. *)
Lemma build_char ts :
  build ts = (fun y => (y, dict_of (group_of y ts))) <$> first_seen (year_of <$> ts).
Proof.
  induction ts as [|t ts IH] using rev_ind; [done |].
  rewrite build_snoc, IH, fmap_app. simpl. rewrite first_seen_snoc.
  unfold record_row. rewrite dict_get_tabulate.
  set (y := year_of t).
  destruct (decide (y ∈ first_seen (year_of <$> ts))) as [Hin|Hin].
  - rewrite decide_True by (by apply elem_of_first_seen).
    rewrite dict_get_tabulate, decide_True by done. simpl.
    rewrite dict_set_tabulate by (done || apply NoDup_first_seen).
    apply list_fmap_ext. intros i x _. f_equal.
    rewrite group_of_snoc. fold y.
    destruct (decide (x = y)) as [->|Hne].
    + rewrite decide_True by done. by rewrite dict_of_snoc.
    + rewrite decide_False by congruence. by rewrite app_nil_r.
  - rewrite decide_False by (by rewrite <- elem_of_first_seen).
    assert (Hk : y ∉ ((fun x => (x, dict_of (group_of x ts))) <$>
                        first_seen (year_of <$> ts)).*1).
    { by rewrite tabulate_keys. }
    rewrite (dict_set_new y [] _ Hk).
    rewrite dict_get_app_last by done. simpl.
    rewrite dict_set_last by done.
    rewrite fmap_app. simpl. f_equal.
    + apply list_fmap_ext. intros i x Hx. f_equal.
      rewrite group_of_snoc. fold y.
      rewrite decide_False; [by rewrite app_nil_r |].
      intros ->. apply Hin. by eapply list_elem_of_lookup_2.
    + f_equal. f_equal. rewrite group_of_snoc. fold y.
      rewrite decide_True by done.
      rewrite group_of_absent; [done |].
      by rewrite <- elem_of_first_seen.
Qed.

(** ** Numerals of one width compare as their numbers *)

Lemma digit_of_range c d : digit_of c = Some d -> (0 <= d <= 9)%Z.
Proof. unfold digit_of. case_match; [| done]. intros [= <-]. lia. Qed.

Lemma dval_bound s :
  all_digits s = true -> (0 <= dval s < 10 ^ Z.of_nat (String.length s))%Z.
Proof.
  induction s as [|c s IH]; simpl; [lia |].
  intros [Hc Hs]%andb_true_iff. apply bool_decide_eq_true in Hc as [d Hd].
  specialize (IH Hs). rewrite Hd. simpl.
  pose proof (digit_of_range _ _ Hd).
  rewrite Nat2Z.inj_succ, Z.pow_succ_r by lia. nia.
Qed.

Lemma digit_of_compare a b da db :
  digit_of a = Some da -> digit_of b = Some db ->
  Ascii.compare a b = (da ?= db)%Z.
Proof.
  unfold digit_of, Ascii.compare. do 2 case_match; try done.
  intros [= <-] [= <-].
  destruct (N.compare_spec (Ascii.N_of_ascii a) (Ascii.N_of_ascii b));
    symmetry; [apply Z.compare_eq_iff | apply Z.compare_lt_iff | apply Z.compare_gt_iff]; lia.
Qed.

Lemma numeral_compare s t :
  all_digits s = true -> all_digits t = true -> String.length s = String.length t ->
  String.compare s t = (dval s ?= dval t)%Z.
Proof.
  revert t. induction s as [|a s IH]; intros [|b t]; simpl; try done.
  intros [Ha Hs]%andb_true_iff [Hb Ht]%andb_true_iff [= Hlen].
  apply bool_decide_eq_true in Ha as [da Hda].
  apply bool_decide_eq_true in Hb as [db Hdb].
  rewrite (digit_of_compare _ _ _ _ Hda Hdb), Hda, Hdb, Hlen. simpl.
  pose proof (digit_of_range _ _ Hda). pose proof (digit_of_range _ _ Hdb).
  pose proof (dval_bound _ Hs) as Bs. pose proof (dval_bound _ Ht) as Bt.
  rewrite Hlen in Bs.
  specialize (IH t Hs Ht Hlen).
  set (P := (10 ^ Z.of_nat (String.length t))%Z) in *.
  destruct (Z.compare_spec da db) as [->|Hlt|Hgt].
  - rewrite IH. destruct (Z.compare_spec (dval s) (dval t));
      symmetry; [apply Z.compare_eq_iff | apply Z.compare_lt_iff | apply Z.compare_gt_iff]; lia.
  - symmetry. apply Z.compare_lt_iff. nia.
  - symmetry. apply Z.compare_gt_iff. nia.
Qed.

Lemma numeral_num n v : is_numeral n v = true -> exists s,
  v = VStr s /\ all_digits s = true /\ String.length s = n /\ num v = dval s.
Proof.
  destruct v as [|z|s]; simpl; try done.
  intros [[Hd Hl%bool_decide_eq_true]%andb_true_iff Hn%negb_true_iff]%andb_true_iff.
  apply bool_decide_eq_false in Hn.
  exists s. repeat split; try done.
  unfold num. destruct s as [|c s]; [done |]. simpl in Hd |- *.
  apply andb_true_iff in Hd as [Hc Hs]. apply bool_decide_eq_true in Hc as Hc'.
  assert (Hne : negb (bool_decide (String c s = "")) = true) by done.
  assert (Hall : bool_decide (is_Some (digit_of c)) && all_digits s = true)
    by (by rewrite Hc, Hs).
  destruct Hc' as [d Hd].
  assert (c <> "-"%char) by (intros ->; vm_compute in Hd; done).
  assert (c <> "+"%char) by (intros ->; vm_compute in Hd; done).
  destruct c as [[] [] [] [] [] [] [] []]; try done;
    simpl; rewrite ?Hs; try done.
Qed.

(** On a numeric column [>] is the order of the numbers. *)
Lemma py_gt_numeric vs a b :
  numeric_column vs -> a ∈ vs -> b ∈ vs -> py_gt a b = inr (num b <? num a)%Z.
Proof.
  intros [Hint|[n Hnum]] Ha Hb.
  - rewrite Forall_forall in Hint.
    pose proof (Hint _ Ha) as Ia. pose proof (Hint _ Hb) as Ib.
    destruct a, b; done.
  - rewrite Forall_forall in Hnum.
    destruct (numeral_num _ _ (Hnum _ Ha)) as (s & -> & Hs & Ls & Ns).
    destruct (numeral_num _ _ (Hnum _ Hb)) as (t & -> & Ht & Lt & Nt).
    rewrite Ns, Nt. simpl. f_equal. unfold String.ltb, Z.ltb.
    rewrite numeral_compare by congruence. done.
Qed.

Lemma py_lt_numeric vs a b :
  numeric_column vs -> a ∈ vs -> b ∈ vs -> py_lt a b = inr (- num b <? - num a)%Z.
Proof.
  intros Hv Ha Hb. unfold py_lt. rewrite (py_gt_numeric vs) by done.
  f_equal. destruct (Z.ltb_spec (num a) (num b)), (Z.ltb_spec (- num b) (- num a)); lia.
Qed.

Lemma numeric_parse vs v : numeric_column vs -> v ∈ vs -> parse_int v = Some (num v).
Proof.
  intros [Hint|[n Hnum]] Hv.
  - rewrite Forall_forall in Hint. specialize (Hint _ Hv). by destruct v.
  - rewrite Forall_forall in Hnum.
    destruct (numeral_num _ _ (Hnum _ Hv)) as (s & -> & Hs & Ls & Ns).
    specialize (Hnum _ Hv). unfold num in *.
    destruct (parse_int (VStr s)) eqn:E; [done |].
    exfalso. unfold is_numeral in Hnum.
    apply andb_true_iff in Hnum as [[_ Hl%bool_decide_eq_true]%andb_true_iff Hn%negb_true_iff].
    apply bool_decide_eq_false in Hn.
    destruct s as [|c s]; [simpl in Hl; congruence |].
    simpl in Hs. apply andb_true_iff in Hs as [Hc Hs'].
    apply bool_decide_eq_true in Hc as [d Hd].
    assert (c <> "-"%char) by (intros ->; vm_compute in Hd; done).
    assert (c <> "+"%char) by (intros ->; vm_compute in Hd; done).
    assert (Hc : bool_decide (is_Some (digit_of c)) = true)
      by (apply bool_decide_eq_true; eauto).
    revert E. simpl.
    destruct c as [[] [] [] [] [] [] [] []]; try done;
      simpl; rewrite ?Hs'; done.
Qed.

(** ** Loops that may raise *)

Lemma traverse_inr {A B} (f : A -> result B) l k :
  traverse f l = inr k <-> Forall2 (fun x y => f x = inr y) l k.
Proof.
  revert k. induction l as [|x l IH]; intros k; simpl.
  - split; [intros [= <-]; constructor | by inversion 1].
  - split.
    + destruct (f x) as [e|y] eqn:Hx; simpl; [done |].
      destruct (traverse f l) as [e|ys] eqn:Hl; simpl; [done |].
      intros [= <-]. constructor; [done | by apply IH].
    + inversion 1 as [|? y ? ys Hx Hl]; subst. rewrite Hx. simpl.
      apply IH in Hl. rewrite Hl. done.
Qed.

(** ** [max] and [min] *)

Lemma first_greatest_elem {A} (f : A -> Z) l r : first_greatest f l r -> r ∈ l.
Proof. intros (l1 & l2 & -> & _). set_solver. Qed.

Lemma first_greatest_ge {A} (f : A -> Z) l r x :
  first_greatest f l r -> x ∈ l -> (f x <= f r)%Z.
Proof.
  intros (l1 & l2 & -> & H1 & H2) Hx.
  rewrite Forall_forall in H1, H2.
  apply elem_of_app in Hx as [Hx|Hx]; [specialize (H1 _ Hx); lia |].
  apply elem_of_cons in Hx as [->|Hx]; [lia | auto].
Qed.

Lemma first_greatest_snoc {A} (f : A -> Z) l r x :
  first_greatest f l r ->
  first_greatest f (l ++ [x]) (if (f r <? f x)%Z then x else r).
Proof.
  intros Hr. destruct (Z.ltb_spec (f r) (f x)) as [Hlt|Hge].
  - exists l, []. split; [done |]. split; [| constructor].
    apply Forall_forall. intros y Hy.
    pose proof (first_greatest_ge _ _ _ _ Hr Hy). lia.
  - destruct Hr as (l1 & l2 & -> & H1 & H2).
    exists l1, (l2 ++ [x]). split; [by rewrite <- app_assoc |].
    split; [done |]. apply Forall_app. split; [done |]. by constructor.
Qed.

(** The first element of greatest [f] is what [find] meets first among the
    elements nothing exceeds; [le] is any test that decides the order. *)
Lemma first_greatest_find {A} (f : A -> Z) (le : A -> A -> bool) l r :
  (forall p q, le q p = (f q <=? f p)%Z) ->
  first_greatest f l r ->
  List.find (fun p => forallb (fun q => le q p) l) l = Some r.
Proof.
  intros Hle Hr. pose proof Hr as (l1 & l2 & El & H1 & H2).
  set (p := fun p => forallb (fun q => le q p) l).
  assert (Hp : p r = true).
  { apply forallb_forall. intros q Hq. rewrite Hle. apply Z.leb_le.
    apply (first_greatest_ge f l r q Hr). by apply list_elem_of_In. }
  assert (Hn : Forall (fun x => p x = false) l1).
  { apply Forall_forall. intros x Hx.
    rewrite Forall_forall in H1. specialize (H1 _ Hx).
    destruct (p x) eqn:E; [| done].
    unfold p in E. rewrite forallb_forall in E.
    assert (Hin : In r l) by (rewrite El; apply in_elt).
    specialize (E _ Hin). rewrite Hle in E. apply Z.leb_le in E. lia. }
  fold p. rewrite El. clear -Hp Hn.
  induction Hn as [|x l1 Hx _ IH]; simpl.
  - by rewrite Hp.
  - by rewrite Hx.
Qed.

Section Extremum.

Variable better : value -> value -> result bool.
Variable key : value -> value.

Lemma choice_sub (c : bool) (k cur x : value) ks :
  x ∈ (if c then k else cur) :: ks -> x ∈ cur :: k :: ks.
Proof. rewrite !elem_of_cons. destruct c; tauto. Qed.

(** When [better] never raises on the keys at hand, neither does the
    loop, and it ends on one of them. *)
Lemma extremum_total ks : forall cur,
  (forall a b, a ∈ cur :: ks -> b ∈ cur :: ks ->
     exists c, better (key a) (key b) = inr c) ->
  exists r, extremum better key ks cur = inr r /\ r ∈ cur :: ks.
Proof.
  induction ks as [|k ks IH]; intros cur Hcmp; simpl.
  - exists cur. split; [done | apply list_elem_of_here].
  - destruct (Hcmp k cur) as [c Hc];
      [apply list_elem_of_further, list_elem_of_here | apply list_elem_of_here |].
    rewrite Hc. simpl.
    destruct (IH (if c then k else cur)) as (r & Hr & Hin).
    + intros a b Ha Hb. apply Hcmp; by apply (choice_sub c).
    + exists r. split; [done |]. by apply (choice_sub c).
Qed.

Variable f : value -> Z.

(** When [better] is the strict order of [f], the loop ends on the first
    key of greatest [f]. *)
Lemma extremum_first_greatest ks : forall pre cur,
  (forall a b, a ∈ pre ++ ks -> b ∈ pre ++ ks ->
     better (key a) (key b) = inr (f (key b) <? f (key a))%Z) ->
  first_greatest (f ∘ key) pre cur ->
  exists r, extremum better key ks cur = inr r /\
            first_greatest (f ∘ key) (pre ++ ks) r.
Proof.
  induction ks as [|k ks IH]; intros pre cur Hcmp Hcur; simpl.
  - exists cur. by rewrite app_nil_r.
  - rewrite Hcmp; cycle 1.
    { set_solver. }
    { apply first_greatest_elem in Hcur. set_solver. }
    simpl.
    destruct (IH (pre ++ [k]) (if (f (key cur) <? f (key k))%Z then k else cur))
      as (r & Hr & Hfg).
    + intros a b. rewrite <- !app_assoc. apply Hcmp.
    + apply (first_greatest_snoc (f ∘ key)), Hcur.
    + exists r. split; [done |]. by rewrite <- app_assoc in Hfg.
Qed.

End Extremum.

(** ** The row loop *)

Lemma triple_items yi ti wi r t :
  triple yi ti wi r = Some t <->
  item r yi = inr (year_of t) /\ item r ti = inr (team_of t) /\ item r wi = inr (wins_of t).
Proof.
  unfold triple, item. destruct t as [[y tm] w]. simpl.
  destruct (r !! yi), (r !! ti), (r !! wi); simpl; split;
    try done; try (intros (? & ? & ?); done).
  - by intros [= -> -> ->].
  - by intros ([= ->] & [= ->] & [= ->]).
Qed.

Lemma process_rows_triples yi ti wi rows : forall ts st,
  triples yi ti wi rows = Some ts ->
  process_rows yi ti wi rows st
  = inr (fold_left (fun st t => record_row st (year_of t) (team_of t) (wins_of t)) ts st).
Proof.
  intros ts st H. unfold triples in H. apply mapM_Some in H. revert st.
  induction H as [|r t rows ts Ht _ IH]; intros st; simpl; [done |].
  apply triple_items in Ht as (-> & -> & ->). simpl. apply IH.
Qed.

Lemma process_rows_inv yi ti wi rows : forall st stats,
  process_rows yi ti wi rows st = inr stats ->
  exists ts, triples yi ti wi rows = Some ts.
Proof.
  induction rows as [|r rows IH]; intros st stats H.
  - by exists [].
  - simpl in H.
    destruct (item r yi) as [|y] eqn:Ey; simpl in H; [done |].
    destruct (item r ti) as [|t] eqn:Et; simpl in H; [done |].
    destruct (item r wi) as [|w] eqn:Ew; simpl in H; [done |].
    apply IH in H as [ts Hts]. unfold triples in *.
    exists ((y, t, w) :: ts). apply mapM_Some_2. constructor.
    + by apply triple_items.
    + by apply mapM_Some_1.
Qed.

(** ** One group *)

Lemma teams_get_entry (teams : teams_t) k v :
  NoDup teams.*1 -> (k, v) ∈ teams -> teams_get teams k = v.
Proof. intros Hnd Hin. unfold teams_get. by rewrite (dict_get_NoDup k v). Qed.

Lemma teams_get_elem (teams : teams_t) k :
  k ∈ teams.*1 -> (k, teams_get teams k) ∈ teams.
Proof.
  intros Hk. unfold teams_get.
  destruct (dict_get k teams) as [v|] eqn:E.
  - by apply dict_get_Some_elem.
  - by apply dict_get_None in E.
Qed.

Lemma teams_item_key (teams : teams_t) k :
  k ∈ teams.*1 -> teams_item teams k = inr (teams_get teams k).
Proof.
  intros Hk. unfold teams_item, teams_get.
  destruct (dict_get k teams) as [v|] eqn:E; [done |].
  by apply dict_get_None in E.
Qed.

(** The first key of greatest value is the first entry of greatest value. *)
Lemma first_greatest_entries (g : value -> Z) (teams : teams_t) w :
  NoDup teams.*1 ->
  first_greatest (g ∘ teams_get teams) teams.*1 w ->
  first_greatest (g ∘ snd) teams (w, teams_get teams w).
Proof.
  intros Hnd (l1 & l2 & El & H1 & H2).
  apply fmap_app_inv in El as (t1 & t' & -> & E' & Et).
  symmetry in E'. apply fmap_cons_inv in E' as ([w' wv] & t2 & Hw & -> & ->).
  simpl in Hw. subst w'.
  assert (Hent : forall p, p ∈ teams -> teams_get teams p.1 = p.2).
  { intros [k v] Hp. by apply teams_get_entry. }
  assert (Hwv : teams_get teams w = wv).
  { apply (Hent (w, wv)). rewrite Et.
    apply elem_of_app. right. apply list_elem_of_here. }
  rewrite Hwv.
  exists t1, t2. split; [done |]. unfold compose in *. split.
  - apply Forall_forall. intros p Hp.
    rewrite Forall_forall in H1.
    specialize (H1 p.1 (list_elem_of_fmap_2 fst _ _ Hp)).
    rewrite Hwv, Hent in H1; [done |].
    rewrite Et. apply elem_of_app. by left.
  - apply Forall_forall. intros p Hp.
    rewrite Forall_forall in H2.
    specialize (H2 p.1 (list_elem_of_fmap_2 fst _ _ Hp)).
    rewrite Hwv, Hent in H2; [done |].
    rewrite Et. apply elem_of_app. right. by apply list_elem_of_further.
Qed.

(** A group whose cells compare by number: the row names the first entry
    of greatest number and the first entry of least number. *)
Lemma summary_row_numeric vs year (teams : teams_t) :
  teams <> [] -> NoDup teams.*1 -> numeric_column vs ->
  (forall p, p ∈ teams -> p.2 ∈ vs) ->
  exists w wv l lv,
    summary_row (year, teams) = inr [year; w; wv; l; lv] /\
    first_greatest (num ∘ snd) teams (w, wv) /\
    first_greatest ((fun v => - num v)%Z ∘ snd) teams (l, lv).
Proof.
  intros Hne Hnd Hvs Hin.
  assert (Hkey : forall a, a ∈ teams.*1 -> teams_get teams a ∈ vs).
  { intros a Ha. apply (Hin (a, teams_get teams a)). by apply teams_get_elem. }
  destruct teams as [|[k0 v0] rest] eqn:Et; [done |]. rewrite <- Et in *.
  assert (Ek : teams.*1 = k0 :: rest.*1) by (by rewrite Et).
  destruct (extremum_first_greatest py_gt (teams_get teams) num rest.*1 [k0] k0)
    as (w & Hw & Fw).
  { simpl. rewrite <- Ek. intros a b Ha Hb. apply (py_gt_numeric vs); auto. }
  { exists [], []. repeat split; constructor. }
  destruct (extremum_first_greatest py_lt (teams_get teams) (fun v => - num v)%Z
              rest.*1 [k0] k0) as (l & Hl & Fl).
  { simpl. rewrite <- Ek. intros a b Ha Hb. apply (py_lt_numeric vs); auto. }
  { exists [], []. repeat split; constructor. }
  simpl in Fw, Fl. rewrite <- Ek in Fw, Fl.
  exists w, (teams_get teams w), l, (teams_get teams l).
  split; [| split; by apply first_greatest_entries].
  unfold summary_row, py_max, py_min. rewrite Ek, Hw, Hl. simpl.
  rewrite !teams_item_key; [done | |].
  - by apply first_greatest_elem in Fw.
  - by apply first_greatest_elem in Fl.
Qed.

(** A group of text cells: no comparison raises, and the row names two of
    the group's entries. *)
Lemma summary_row_text year (teams : teams_t) :
  teams <> [] ->
  (forall p, p ∈ teams -> is_str p.2 = true) ->
  exists w wv l lv,
    summary_row (year, teams) = inr [year; w; wv; l; lv] /\
    (w, wv) ∈ teams /\ (l, lv) ∈ teams.
Proof.
  intros Hne Hin.
  assert (Hkey : forall a, a ∈ teams.*1 -> is_str (teams_get teams a) = true).
  { intros a Ha. apply (Hin (a, teams_get teams a)). by apply teams_get_elem. }
  destruct teams as [|[k0 v0] rest] eqn:Et; [done |]. rewrite <- Et in *.
  assert (Ek : teams.*1 = k0 :: rest.*1) by (by rewrite Et).
  destruct (extremum_total py_gt (teams_get teams) rest.*1 k0) as (w & Hw & Iw).
  { rewrite <- Ek. intros a b Ha%Hkey Hb%Hkey.
    destruct (teams_get teams a), (teams_get teams b); try done. simpl. eauto. }
  destruct (extremum_total py_lt (teams_get teams) rest.*1 k0) as (l & Hl & Il).
  { rewrite <- Ek. intros a b Ha%Hkey Hb%Hkey.
    destruct (teams_get teams a), (teams_get teams b); try done. simpl. eauto. }
  rewrite <- Ek in Iw, Il.
  exists w, (teams_get teams w), l, (teams_get teams l).
  split; [| split; by apply teams_get_elem].
  unfold summary_row, py_max, py_min. rewrite Ek, Hw, Hl. simpl.
  by rewrite !teams_item_key.
Qed.

(** ** The whole aggregation *)

Lemma traverse_Forall {A B} (f : A -> result B) (P : A -> B -> Prop) l :
  Forall (fun x => exists y, f x = inr y /\ P x y) l ->
  exists k, traverse f l = inr k /\ Forall2 P l k.
Proof.
  induction 1 as [|x l (y & Hy & HP) _ (k & Hk & HF)]; simpl.
  - exists []. split; [done | constructor].
  - exists (y :: k). rewrite Hy, Hk. split; [done | by constructor].
Qed.

Lemma read_sheet_summary ws ts :
  read_sheet ws = inr ts ->
  summary ws = (out ← traverse summary_row (build ts); inr (sheet_2_header :: out)).
Proof.
  unfold read_sheet, summary, winners_and_losers.
  destruct (index (VStr "Year") (hd [] ws)) as [|yi]; simpl; [done |].
  destruct (index (VStr "Team Name") (hd [] ws)) as [|ti]; simpl; [done |].
  destruct (index (VStr "Wins") (hd [] ws)) as [|wi]; simpl; [done |].
  destruct (triples yi ti wi (tl ws)) as [ts'|] eqn:E; [| done].
  intros [= ->]. by rewrite (process_rows_triples _ _ _ _ ts).
Qed.

Lemma group_of_elem y k v ts : (k, v) ∈ group_of y ts <-> (y, k, v) ∈ ts.
Proof.
  unfold group_of. rewrite list_elem_of_fmap. split.
  - intros ([[y' k'] v'] & [= -> ->] & Hin).
    apply list_elem_of_In, filter_In in Hin as [Hin Hy].
    apply bool_decide_eq_true in Hy. simpl in Hy. subst. by apply list_elem_of_In.
  - intros Hin. exists (y, k, v). split; [done |].
    apply list_elem_of_In, filter_In. split; [by apply list_elem_of_In |].
    by apply bool_decide_eq_true.
Qed.

Lemma group_of_nonempty y ts : y ∈ year_of <$> ts -> group_of y ts <> [].
Proof.
  intros ([[y' k] v] & -> & Hin)%list_elem_of_fmap Hnil.
  apply group_of_elem in Hin. unfold year_of in Hnil. simpl in Hnil.
  rewrite Hnil in Hin. by apply elem_of_nil in Hin.
Qed.

Lemma dict_of_nonempty ps : ps <> [] -> dict_of ps <> [].
Proof.
  intros Hne Hnil. apply (f_equal (fmap fst)) in Hnil.
  rewrite dict_of_keys in Hnil. destruct ps; [done |]. done.
Qed.

(** What a dictionary holds was assigned. *)
Lemma dict_of_elem ps p : p ∈ dict_of ps -> p ∈ ps.
Proof.
  intros Hin. destruct p as [k v].
  apply (dict_get_NoDup k v) in Hin; [| apply dict_of_NoDup].
  rewrite dict_of_get in Hin. apply last_Some_elem_of in Hin.
  apply list_elem_of_fmap in Hin as ([k' v'] & -> & Hin).
  apply list_elem_of_In, filter_In in Hin as [Hin Hk].
  apply bool_decide_eq_true in Hk. simpl in *. subst. by apply list_elem_of_In.
Qed.

Lemma filter_group y team ts :
  List.filter (fun p : value * value => bool_decide (p.1 = team)) (group_of y ts)
  = (fun t => (team_of t, wins_of t)) <$>
      List.filter (fun t => bool_decide (year_of t = y) &&
                            bool_decide (team_of t = team)) ts.
Proof.
  unfold group_of, year_of, team_of, wins_of.
  induction ts as [|[[y' k] v] ts IH]; [done |].
  cbn [List.filter fst snd].
  destruct (bool_decide (y' = y)); cbn [andb fmap list_fmap List.filter fst snd];
    [destruct (bool_decide (k = team)) |]; cbn [fmap list_fmap];
    rewrite <- ?IH; done.
Qed.

Lemma last_wins_dict y team ts :
  last_wins y team ts = dict_get team (dict_of (group_of y ts)).
Proof.
  rewrite dict_of_get, filter_group. unfold last_wins. f_equal.
  rewrite <- list_fmap_compose. by apply list_fmap_ext.
Qed.

(** Every group that [build] holds is a year of the sheet, and its
    dictionary is not empty, has no repeated key, and holds cells of rows
    of that year. *)
Lemma build_groups ts g :
  g ∈ build ts ->
  g.1 ∈ year_of <$> ts /\ g.2 = dict_of (group_of g.1 ts) /\
  g.2 <> [] /\ NoDup g.2.*1 /\ forall k v, (k, v) ∈ g.2 -> (g.1, k, v) ∈ ts.
Proof.
  rewrite build_char. intros (y & -> & Hy)%list_elem_of_fmap. simpl.
  rewrite elem_of_first_seen in Hy.
  split; [done |]. split; [done |]. split; [| split].
  - by apply dict_of_nonempty, group_of_nonempty.
  - apply dict_of_NoDup.
  - intros k v Hin. by apply group_of_elem, dict_of_elem.
Qed.


(** [transform] saves the rows of [summary] as the second sheet, in place of
    an earlier one; when [summary] raises, the file stays as it was. *)
Lemma transform_writes_summary wb ws :
  dict_get SHEET_1_NAME wb = Some ws ->
  transform (Some wb) =
  match summary ws with
  | inr sheet_2 =>
      (Some (List.filter (fun s : string * list (list value) =>
                            negb (bool_decide (s.1 = SHEET_2_NAME))) wb
               ++ [(SHEET_2_NAME, sheet_2)]), SheetCreated)
  | inl e => (Some wb, ErrorOccurred e)
  end.
Proof. intros Hws. unfold transform. cbn. rewrite Hws. cbn. by destruct (summary ws). Qed.

Lemma Forall_choose {A B} (P : A -> B -> Prop) l :
  Forall (fun x => exists y, P x y) l -> exists k, Forall2 P l k.
Proof.
  induction 1 as [|x l [y Hy] _ [k Hk]].
  - exists []. constructor.
  - exists (y :: k). by constructor.
Qed.

Lemma Forall2_right {A B} (Q : B -> Prop) (l : list A) k :
  Forall2 (fun _ y => Q y) l k -> Forall Q k.
Proof. induction 1; by constructor. Qed.

Lemma group_of_NoDup y ts :
  NoDup ((fun t => (year_of t, team_of t)) <$> ts) -> NoDup (group_of y ts).*1.
Proof.
  induction ts as [|t ts IH]; [intros _; constructor |].
  rewrite fmap_cons, NoDup_cons. intros [Hnew Hnd].
  change (t :: ts) with ([t] ++ ts).
  unfold group_of. rewrite List.filter_app, fmap_app. fold (group_of y ts).
  cbn [List.filter]. destruct (bool_decide (year_of t = y)) eqn:Ey; [| by apply IH].
  apply bool_decide_eq_true in Ey.
  change (NoDup (team_of t :: (group_of y ts).*1)).
  apply NoDup_cons. split; [| by apply IH].
  intros ([k v] & Hk & Hin)%list_elem_of_fmap. simpl in Hk. subst k.
  apply group_of_elem in Hin. apply Hnew.
  apply list_elem_of_fmap. exists (y, team_of t, v). by rewrite Ey.
Qed.

(** C9 -- When the same year and team occur on more than one row, [stats]
    keeps one entry for the team, holding the wins of the last such row:
    for every year and team, [stats[year][team]] is the wins cell of the
    last row with that year and team, and no group lists a team twice. *)
Theorem duplicate_label_keeps_last yi ti wi rows stats :
  process_rows yi ti wi rows [] = inr stats ->
  exists ts, triples yi ti wi rows = Some ts /\
    (forall year team,
       dict_get year stats ≫= dict_get team = last_wins year team ts) /\
    (forall year teams, dict_get year stats = Some teams -> NoDup teams.*1).
Proof.
  intros Hrun. destruct (process_rows_inv _ _ _ _ _ _ Hrun) as [ts Hts].
  exists ts. split; [done |].
  rewrite (process_rows_triples _ _ _ _ ts) in Hrun by done.
  injection Hrun as <-. fold (build ts). rewrite build_char.
  split.
  - intros year team. rewrite dict_get_tabulate, last_wins_dict.
    destruct (decide (year ∈ first_seen (year_of <$> ts))) as [Hin|Hin]; [done |].
    rewrite group_of_absent; [done |]. by rewrite <- elem_of_first_seen.
  - intros year teams. rewrite dict_get_tabulate.
    case_decide; [| done]. intros [= <-]. apply dict_of_NoDup.
Qed.

Lemma duplicate_label_keeps_last_witness :
  exists ts, triples 0 1 2 (tl Fixture.sheet_repeat) = Some ts /\
    (forall year team,
       dict_get year [(VInt 1990, [(VStr "A", VInt 3); (VStr "B", VInt 5)])]
         ≫= dict_get team = last_wins year team ts) /\
    (forall year teams,
       dict_get year [(VInt 1990, [(VStr "A", VInt 3); (VStr "B", VInt 5)])]
         = Some teams -> NoDup teams.*1).
Proof.
  apply (duplicate_label_keeps_last 0 1 2 (tl Fixture.sheet_repeat)). reflexivity.
Defined.

(** C3, as worded, fails: a wins cell that is not a number does not stop the
    aggregation.  On [sheet_text] the cell ["abc"] does not parse, and the
    second sheet is produced all the same. *)
Lemma unparsable_cell_counterexample :
  (VStr "1990", VStr "A", VStr "abc") ∈ Fixture.rows_of Fixture.sheet_text /\
  parse_int (VStr "abc") = None /\
  summary Fixture.sheet_text
  = inr [sheet_2_header; [VStr "1990"; VStr "A"; VStr "abc"; VStr "B"; VStr "7"]].
Proof. split; [apply list_elem_of_here | split; reflexivity]. Qed.

(** C3, amended -- The aggregation does not parse the wins column.  On a
    sheet that has the three columns and whose wins cells are all text,
    numbers or not, it succeeds: it emits one row per year, in first-seen
    order, and the winner and the loser of a row are the team and wins
    cells of rows of that year, passed on as stored. *)
Theorem text_cells_not_parsed ws ts :
  read_sheet ws = inr ts ->
  Forall (fun t => is_str (wins_of t) = true) ts ->
  exists out, summary ws = inr (sheet_2_header :: out) /\
    Forall2 (fun year r => exists w wv l lv,
               r = [year; w; wv; l; lv] /\ (year, w, wv) ∈ ts /\ (year, l, lv) ∈ ts)
      (first_seen (year_of <$> ts)) out.
Proof.
  intros Hread Htext. rewrite (read_sheet_summary ws ts Hread).
  destruct (traverse_Forall summary_row
              (fun g r => exists w wv l lv,
                 r = [g.1; w; wv; l; lv] /\ (g.1, w, wv) ∈ ts /\ (g.1, l, lv) ∈ ts)
              (build ts)) as (out & Hout & HF).
  { apply Forall_forall. intros [y teams] Hg.
    destruct (build_groups ts _ Hg) as (_ & _ & Hne & _ & Hcells). simpl in *.
    destruct (summary_row_text y teams Hne) as (w & wv & l & lv & Hrow & Hw & Hl).
    { intros [k v] Hp. rewrite Forall_forall in Htext.
      apply (Htext (y, k, v)). by apply Hcells. }
    exists [y; w; wv; l; lv]. split; [done |].
    exists w, wv, l, lv. auto. }
  exists out. rewrite Hout. split; [done |].
  rewrite build_char in HF. by apply Forall2_fmap_l in HF.
Qed.

Lemma text_cells_not_parsed_witness :
  exists out, summary Fixture.sheet_text = inr (sheet_2_header :: out) /\
    Forall2 (fun year r => exists w wv l lv,
               r = [year; w; wv; l; lv] /\
               (year, w, wv) ∈ Fixture.rows_of Fixture.sheet_text /\
               (year, l, lv) ∈ Fixture.rows_of Fixture.sheet_text)
      (first_seen (year_of <$> Fixture.rows_of Fixture.sheet_text)) out.
Proof.
  apply (text_cells_not_parsed Fixture.sheet_text (Fixture.rows_of Fixture.sheet_text)).
  - reflexivity.
  - repeat constructor.
Defined.

(** Text cells are ordered character by character: with wins written "9" and
    "10" the row names the team with "9" as the one with most wins. *)
Lemma text_widths_by_character :
  summary Fixture.sheet_widths
  = inr [sheet_2_header; [VStr "1990"; VStr "A"; VStr "9"; VStr "B"; VStr "10"]].
Proof. reflexivity. Qed.

(** C4, as worded, fails: on [sheet_repeat] the year 1990 has a row with 9
    wins, and the row emitted for 1990 names a winner with 5. *)
Lemma winner_below_group_value_counterexample :
  summary Fixture.sheet_repeat
  = inr [sheet_2_header; [VInt 1990; VStr "B"; VInt 5; VStr "A"; VInt 3]] /\
  (VStr "A", VInt 9) ∈ group_of (VInt 1990) (Fixture.rows_of Fixture.sheet_repeat) /\
  ~ (num (VInt 9) <= num (VInt 5))%Z.
Proof. split; [reflexivity | split; [apply list_elem_of_here | vm_compute; done]]. Qed.

(** C4, amended -- On a sheet whose wins cells are all stored integers, or
    all numerals of one width, every row emitted is for a year that has a
    row, its winner's wins are at least, and its loser's wins at most, the
    wins retained for every team of that year (those of the team's last
    row). *)
Theorem extrema_bound_retained ws ts :
  read_sheet ws = inr ts ->
  numeric_column (wins_of <$> ts) ->
  exists out, summary ws = inr (sheet_2_header :: out) /\
    Forall (fun r => exists year w wv l lv,
              r = [year; w; wv; l; lv] /\
              year ∈ year_of <$> ts /\
              forall team v, last_wins year team ts = Some v ->
                             (num lv <= num v <= num wv)%Z) out.
Proof.
  intros Hread Hnum. rewrite (read_sheet_summary ws ts Hread).
  set (Q := fun r : list value => exists year w wv l lv,
              r = [year; w; wv; l; lv] /\
              year ∈ year_of <$> ts /\
              forall team v, last_wins year team ts = Some v ->
                             (num lv <= num v <= num wv)%Z).
  destruct (traverse_Forall summary_row (fun _ r => Q r) (build ts))
    as (out & Hout & HF).
  { apply Forall_forall. intros [y teams] Hg.
    destruct (build_groups ts _ Hg) as (Hy & Eg & Hne & Hnd & Hcells). simpl in *.
    destruct (summary_row_numeric (wins_of <$> ts) y teams Hne Hnd Hnum)
      as (w & wv & l & lv & Hrow & Hw & Hl).
    { intros [k v] Hp. apply list_elem_of_fmap. exists (y, k, v).
      split; [done | by apply Hcells]. }
    exists [y; w; wv; l; lv]. split; [done |].
    exists y, w, wv, l, lv. split; [done |]. split; [done |].
    intros team v Hlast. rewrite last_wins_dict, <- Eg in Hlast.
    apply dict_get_Some_elem in Hlast.
    pose proof (first_greatest_ge _ _ _ _ Hw Hlast) as Hge.
    pose proof (first_greatest_ge _ _ _ _ Hl Hlast) as Hle.
    simpl in Hge, Hle. lia. }
  exists out. rewrite Hout. split; [done |]. by apply Forall2_right in HF.
Qed.

Lemma extrema_bound_retained_witness :
  exists out, summary Fixture.sheet_nhl = inr (sheet_2_header :: out) /\
    Forall (fun r => exists year w wv l lv,
              r = [year; w; wv; l; lv] /\
              year ∈ year_of <$> Fixture.rows_of Fixture.sheet_nhl /\
              forall team v,
                last_wins year team (Fixture.rows_of Fixture.sheet_nhl) = Some v ->
                (num lv <= num v <= num wv)%Z) out.
Proof.
  apply (extrema_bound_retained Fixture.sheet_nhl (Fixture.rows_of Fixture.sheet_nhl)).
  - reflexivity.
  - right. exists 2%nat. repeat constructor.
Defined.

(** C6, as worded, fails: on [sheet_level] the entries of 1990 in the order
    seen are (A, 5), (B, 7), (A, 7); the first entry of greatest value is
    (B, 7), and the row emitted names A. *)
Lemma first_seen_entry_counterexample :
  summary Fixture.sheet_level
  = inr [sheet_2_header; [VInt 1990; VStr "A"; VInt 7; VStr "A"; VInt 7]] /\
  spec_aggregate (Fixture.rows_of Fixture.sheet_level)
  = Some [[VInt 1990; VStr "B"; VInt 7; VStr "A"; VInt 5]].
Proof. split; reflexivity. Qed.

(** C6, amended -- On a sheet where no year and team occur together on two
    rows, and whose wins cells are all stored integers or all numerals of
    one width, the rows emitted are those of the spec's aggregation: one
    per year in first-seen order, the winner the first entry of greatest
    wins and the loser the first entry of least wins. *)
Theorem aggregate_refines_spec ws ts :
  read_sheet ws = inr ts ->
  numeric_column (wins_of <$> ts) ->
  NoDup ((fun t => (year_of t, team_of t)) <$> ts) ->
  exists out, spec_aggregate ts = Some out /\
              summary ws = inr (sheet_2_header :: out).
Proof.
  intros Hread Hnum Hnd. rewrite (read_sheet_summary ws ts Hread).
  assert (Hparse : is_Some (mapM (fun t => parse_int (wins_of t)) ts)).
  { apply mapM_is_Some, Forall_forall. intros t Ht. simpl.
    rewrite (numeric_parse (wins_of <$> ts)); [done.. |].
    by apply list_elem_of_fmap_2. }
  destruct Hparse as [zs Hzs].
  unfold spec_aggregate. rewrite Hzs. simpl.
  unfold spec_groups. rewrite build_char.
  destruct (Forall_choose
              (fun y r => summary_row (y, dict_of (group_of y ts)) = inr r /\
                          spec_row (y, group_of y ts) = Some r)
              (first_seen (year_of <$> ts))) as (out & HF).
  { apply Forall_forall. intros y Hy. rewrite elem_of_first_seen in Hy.
    rewrite (dict_of_NoDup_id (group_of y ts)) by (by apply group_of_NoDup).
    destruct (summary_row_numeric (wins_of <$> ts) y (group_of y ts))
      as (w & wv & l & lv & Hrow & Hw & Hl); try done.
    - by apply group_of_nonempty.
    - by apply group_of_NoDup.
    - intros [k v] Hp. apply group_of_elem in Hp.
      apply list_elem_of_fmap. by exists (y, k, v).
    - exists [y; w; wv; l; lv]. split; [done |].
      unfold spec_row, spec_winner, spec_loser. simpl.
      rewrite (first_greatest_find (num ∘ snd)
                 (fun q p => (num q.2 <=? num p.2)%Z) _ (w, wv)); [| done | done].
      rewrite (first_greatest_find ((fun v => - num v)%Z ∘ snd)
                 (fun q p => (num p.2 <=? num q.2)%Z) _ (l, lv));
        [done | | done].
      intros p q. simpl.
      destruct (Z.leb_spec (num p.2) (num q.2)), (Z.leb_spec (- num q.2) (- num p.2));
        (done || lia). }
  exists out. split.
  - apply mapM_Some_2, Forall2_fmap_l. eapply Forall2_impl; [exact HF |].
    by intros y r [_ ?].
  - assert (Ht : traverse summary_row
                   ((fun y => (y, dict_of (group_of y ts))) <$>
                      first_seen (year_of <$> ts)) = inr out).
    { apply traverse_inr, Forall2_fmap_l. eapply Forall2_impl; [exact HF |].
      by intros y r [? _]. }
    by rewrite Ht.
Qed.

Lemma aggregate_refines_spec_witness :
  exists out, spec_aggregate (Fixture.rows_of Fixture.sheet_nhl) = Some out /\
              summary Fixture.sheet_nhl = inr (sheet_2_header :: out).
Proof.
  apply (aggregate_refines_spec Fixture.sheet_nhl (Fixture.rows_of Fixture.sheet_nhl)).
  - reflexivity.
  - right. exists 2%nat. repeat constructor.
  - apply (bool_decide_unpack _). vm_compute. exact I.
Defined.

(** ** Running stateful code *)

Lemma bind_ok {A B} (m : M A) (k : A -> M B) w w' a :
  m w = (w', inr a) -> (m ≫= k) w = k a w'.
Proof. intros H. unfold mbind, M_bind. by rewrite H. Qed.

Lemma bind_raise {A B} (m : M A) (k : A -> M B) w w' e :
  m w = (w', inl e) -> (m ≫= k) w = (w', inl e).
Proof. intros H. unfold mbind, M_bind. by rewrite H. Qed.

Lemma try_ok {A} (body : M A) handler w w' a :
  body w = (w', inr a) -> try_except body handler w = (w', inr a).
Proof. intros H. unfold try_except. by rewrite H. Qed.

Lemma try_raise {A} (body : M A) handler w w' e :
  body w = (w', inl e) -> try_except body handler w = handler e w'.
Proof. intros H. unfold try_except. by rewrite H. Qed.

Lemma set_heap_same w : set_heap (heap w) w = w.
Proof. by destruct w. Qed.

Lemma set_heap_twice h h' w : set_heap h (set_heap h' w) = set_heap h w.
Proof. done. Qed.

Lemma heap_set_heap h w : heap (set_heap h w) = h.
Proof. done. Qed.

(** ** One page *)

Section ExtractFacts.

Variable BeautifulSoup : string -> Soup.node.
Variable urljoin : string -> string -> result string.
Variable net : nat -> string -> result string.

Lemma keep_row_run (rows : loc) tr w :
  keep_row rows tr w
  = (if nonempty (cells_of tr)
     then set_heap (alter (fun l => l ++ [cells_of tr]) rows (heap w)) w
     else w, inr tt).
Proof. unfold keep_row. by destruct (cells_of tr). Qed.

(** The row loop appends, to the list it is given, the rows that have a
    cell, and touches nothing else. *)
Lemma keep_rows_appends (rows : loc) trs : forall w (old : list row),
  heap w !! rows = Some old ->
  for_each trs (keep_row rows) w
  = (set_heap (<[rows := old ++ List.filter nonempty (cells_of <$> trs)]> (heap w)) w,
     inr tt).
Proof.
  induction trs as [|tr trs IH]; intros w old Hold.
  - simpl. rewrite app_nil_r, insert_id by done. by rewrite set_heap_same.
  - cbn [for_each fmap list_fmap List.filter].
    erewrite bind_ok; [| apply keep_row_run].
    destruct (nonempty (cells_of tr)).
    + erewrite IH; cycle 1.
      { simpl. rewrite lookup_alter, decide_True by done. rewrite Hold. reflexivity. }
      rewrite set_heap_twice, heap_set_heap. f_equal. f_equal.
      rewrite <- app_assoc. simpl.
      apply map_eq. intros r. rewrite !lookup_insert.
      case_decide; [done |]. by rewrite lookup_alter, decide_False.
    + by apply IH.
Qed.

(** On a page that has the table: the list given is the list returned, and
    it has grown by the rows of the page. *)
Lemma get_html_table_run html (rows : loc) w table (old : list row) :
  Soup.find is_table (BeautifulSoup html) = Some table ->
  heap w !! rows = Some old ->
  get_html_table BeautifulSoup html rows w
  = (set_heap (<[rows := old ++ page_rows table]> (heap w)) w,
     inr (Some (rows, page_header table))).
Proof.
  intros Htable Hold. unfold get_html_table. rewrite Htable.
  apply try_ok.
  erewrite bind_ok; [| reflexivity].
  erewrite bind_ok; [| by apply keep_rows_appends].
  reflexivity.
Qed.

(** C10 -- On a page that has the table, [get_html_table] returns the
    very list it was given together with the header: the list object now
    holds what it held followed by the page's rows that have at least one
    cell, in document order; no other list object changes and nothing is
    printed. *)
Theorem get_html_table_appends html (rows : loc) w table (old : list row) :
  Soup.find is_table (BeautifulSoup html) = Some table ->
  heap w !! rows = Some old ->
  get_html_table BeautifulSoup html rows w
  = (set_heap (<[rows := old ++ page_rows table]> (heap w)) w,
     inr (Some (rows, page_header table))).
Proof.
  intros Htable Hold. unfold get_html_table. rewrite Htable.
  apply try_ok.
  erewrite bind_ok; [| reflexivity].
  erewrite bind_ok; [| by apply keep_rows_appends].
  reflexivity.
Qed.

End ExtractFacts.

Lemma get_html_table_appends_witness :
  get_html_table Site.parser "p1" 1%positive
    (World {[1%positive := [["Anaheim"; "20"]]]} [] None None)
  = (set_heap (<[1%positive := [["Anaheim"; "20"]] ++
                   [["Boston Bruins"; "44"]; ["Buffalo Sabres"; "31"]]]>
                 {[1%positive := [["Anaheim"; "20"]]]})
       (World {[1%positive := [["Anaheim"; "20"]]]} [] None None),
     inr (Some (1%positive, ["Team"; "Wins"]))).
Proof.
  exact (get_html_table_appends Site.parser "p1" 1%positive
           (World {[1%positive := [["Anaheim"; "20"]]]} [] None None)
           (Site.table_of ["Team"; "Wins"]
              [["Boston Bruins"; "44"]; []; ["Buffalo Sabres"; "31"]])
           [["Anaheim"; "20"]] eq_refl eq_refl).
Defined.

(** ** Discovery *)

Section DiscoveryFacts.

Variable BeautifulSoup : string -> Soup.node.
Variable net : nat -> string -> result string.

Lemma traverse_getitem key l :
  Forall (fun a => is_Some (Soup.get key a)) l ->
  traverse (Soup.getitem key) l = inr (omap (Soup.get key) l).
Proof.
  induction 1 as [|a l [v Hv] _ IH]; [done |].
  cbn [traverse omap list_omap]. rewrite IH.
  unfold Soup.getitem. rewrite Hv. done.
Qed.

(** What [get_pages_url] does, case by case: whatever is raised inside is
    printed and the list stays empty. *)
Lemma get_pages_url_run w :
  get_pages_url BeautifulSoup net w =
  match net 0%nat BASE_URL with
  | inl e => (set_stdout (stdout w ++ [AnErrorOccurred e]) w, inr [])
  | inr html =>
      match Soup.find is_pagination (BeautifulSoup html) with
      | None => (w, inr [])
      | Some pagination =>
          match traverse (Soup.getitem "href")
                  (Soup.find_all is_page_link pagination) with
          | inr page_urls => (w, inr page_urls)
          | inl e => (set_stdout (stdout w ++ [AnErrorOccurred e]) w, inr [])
          end
      end
  end.
Proof.
  unfold get_pages_url, try_except, fetch_page, lift, mbind, M_bind.
  destruct (net 0%nat BASE_URL) as [e|html]; [done |].
  destruct (Soup.find is_pagination (BeautifulSoup html)) as [p|]; [| done].
  by destruct (traverse _ _).
Qed.

(** Discovery never raises and leaves the files and the lists alone. *)
Lemma get_pages_url_frame w :
  exists w1 page_urls,
    get_pages_url BeautifulSoup net w = (w1, inr page_urls) /\
    heap w1 = heap w /\ output_zip w1 = output_zip w /\
    excel_file w1 = excel_file w.
Proof.
  rewrite get_pages_url_run.
  destruct (net 0%nat BASE_URL) as [e|html]; [by eexists _, _ |].
  destruct (Soup.find is_pagination (BeautifulSoup html)) as [p|];
    [| by eexists _, _].
  destruct (traverse _ _); by eexists _, _.
Qed.

(** C5, amended -- A landing page whose markup has no pagination control
    makes discovery return the empty sequence, and so does a landing page
    that cannot be fetched: the exception is printed, not propagated, and
    the caller gets an empty sequence. *)
Theorem discovery_degrades w :
  (exists e, net 0%nat BASE_URL = inl e) \/
  (exists html, net 0%nat BASE_URL = inr html /\
                Soup.find is_pagination (BeautifulSoup html) = None) ->
  exists w1,
    get_pages_url BeautifulSoup net w = (w1, inr []) /\
    (forall e, net 0%nat BASE_URL = inl e ->
               w1 = set_stdout (stdout w ++ [AnErrorOccurred e]) w) /\
    (forall html, net 0%nat BASE_URL = inr html -> w1 = w).
Proof.
  rewrite get_pages_url_run. intros [[e He]|(html & Hh & Hp)].
  - rewrite He. eexists. split; [done |]. split; [by intros ? [= <-] | done].
  - rewrite Hh, Hp. eexists. split; [done |]. split; done.
Qed.

(** C7, amended -- When the landing page is fetched and every link of its
    pagination control that carries no [aria-label] has an [href],
    discovery returns exactly those links, in document order; without a
    pagination control it returns the empty sequence.  It prints
    nothing. *)
Theorem discovery_returns_links w html :
  net 0%nat BASE_URL = inr html ->
  links_have_href BeautifulSoup html ->
  get_pages_url BeautifulSoup net w = (w, inr (page_links BeautifulSoup html)).
Proof.
  intros Hnet Hhref. rewrite get_pages_url_run, Hnet.
  unfold links_have_href, page_links in *.
  destruct (Soup.find is_pagination (BeautifulSoup html)) as [p|]; [| done].
  unfold Soup.find_all. by rewrite traverse_getitem.
Qed.

End DiscoveryFacts.

(** C5, as worded, fails: with nothing reachable, discovery returns an empty
    sequence instead of raising, and the run goes on to write an archive
    and a workbook, both empty. *)
Lemma unreachable_landing_counterexample :
  (get_pages_url Site.parser Site.net_down empty_world).2 = inr [] /\
  let w := (extract Site.parser Site.join Site.net_down [] empty_world).1 in
  output_zip w = Some [] /\ excel_file w = Some ([], []).
Proof. split; [reflexivity | split; reflexivity]. Qed.

Lemma discovery_degrades_witness :
  exists w1,
    get_pages_url Site.parser Site.net_down empty_world = (w1, inr []) /\
    (forall e, Site.net_down 0%nat BASE_URL = inl e ->
               w1 = set_stdout (stdout empty_world ++ [AnErrorOccurred e]) empty_world) /\
    (forall html, Site.net_down 0%nat BASE_URL = inr html -> w1 = empty_world).
Proof.
  apply (discovery_degrades Site.parser Site.net_down empty_world).
  left. exists (ClientError "unreachable"). reflexivity.
Defined.

(** C7, as worded, fails: the control of [landing_bare_anchor] holds the
    link [p1] and an anchor without [href], neither labelled; discovery
    returns nothing. *)
Lemma bare_anchor_counterexample :
  Site.net_bare 0%nat BASE_URL = inr "bare" /\
  page_links Site.parser "bare" = ["p1"] /\
  get_pages_url Site.parser Site.net_bare empty_world
  = (set_stdout [AnErrorOccurred KeyError] empty_world, inr []).
Proof. split; [reflexivity | split; reflexivity]. Qed.

Lemma discovery_returns_links_witness :
  get_pages_url Site.parser Site.net_up empty_world
  = (empty_world, inr (page_links Site.parser "landing")).
Proof.
  apply (discovery_returns_links Site.parser Site.net_up empty_world "landing").
  - reflexivity.
  - unfold links_have_href. vm_compute Soup.find.
    repeat constructor; eexists; reflexivity.
Defined.

(** ** Gathering *)


Lemma gather_run_ok pages order : forall slots,
  slots_agree slots pages ->
  exists slots',
    gather_run (inr <$> pages) order slots = inr slots' /\
    slots_agree slots' pages /\
    (forall i p, slots !! i = Some (Some p) -> slots' !! i = Some (Some p)) /\
    (forall i p, i ∈ order -> pages !! i = Some p -> slots' !! i = Some (Some p)).
Proof.
  induction order as [|i order IH]; intros slots [Hlen Hag].
  - exists slots. split; [done |]. split; [done |]. split; [done |].
    intros i p Hi. by apply elem_of_nil in Hi.
  - cbn [gather_run]. rewrite list_lookup_fmap.
    destruct (pages !! i) as [p|] eqn:Hp; cbn [fmap option_fmap option_map].
    + assert (Hi : (i < length slots)%nat).
      { rewrite Hlen. by eapply lookup_lt_Some. }
      destruct (IH (<[i := Some p]> slots)) as (slots' & Hrun & Hag' & Hmono & Hdone).
      { split; [by rewrite length_insert |].
        intros j q. destruct (decide (i = j)) as [<-|Hne].
        - rewrite list_lookup_insert_eq by done. congruence.
        - rewrite list_lookup_insert_ne by done. apply Hag. }
      exists slots'. split; [done |]. split; [done |]. split.
      * intros j q Hj. apply Hmono.
        destruct (decide (i = j)) as [<-|Hne].
        -- rewrite list_lookup_insert_eq by done. apply Hag in Hj. congruence.
        -- by rewrite list_lookup_insert_ne.
      * intros j q [->|Hj]%elem_of_cons Hq; [| by apply Hdone].
        apply Hmono. rewrite list_lookup_insert_eq by done. congruence.
    + destruct (IH slots) as (slots' & Hrun & Hag' & Hmono & Hdone); [done |].
      exists slots'. split; [done |]. split; [done |]. split; [done |].
      intros j q [->|Hj]%elem_of_cons Hq; [congruence | by apply Hdone].
Qed.

(** When every task ends with a page, [gather] returns the pages in the
    order of the tasks, whatever the order of completion. *)
Lemma gather_all_ok schedule pages :
  gather schedule (inr <$> pages) = inr pages.
Proof.
  unfold gather. rewrite length_fmap.
  destruct (gather_run_ok pages (schedule ++ seq 0 (length pages))
              (replicate (length pages) None))
    as (slots' & Hrun & [Hlen _] & _ & Hdone).
  { split; [by rewrite length_replicate |].
    intros i p Hi. apply lookup_replicate in Hi as [? _]. done. }
  rewrite Hrun. cbn. f_equal.
  assert (Hs : slots' = Some <$> pages).
  { apply list_eq. intros i. rewrite list_lookup_fmap.
    destruct (pages !! i) as [p|] eqn:Hp; simpl.
    - apply Hdone; [| done]. apply elem_of_app. right.
      apply elem_of_seq. apply lookup_lt_Some in Hp. lia.
    - apply lookup_ge_None. rewrite Hlen. by apply lookup_ge_None. }
  rewrite Hs. clear. induction pages as [|p pages IH]; [done |].
  cbn. by rewrite IH.
Qed.

Lemma gather_run_fail tasks order : forall slots i e0,
  i ∈ order -> tasks !! i = Some (inl e0) ->
  exists e j, gather_run tasks order slots = inl e /\ tasks !! j = Some (inl e).
Proof.
  induction order as [|k order IH]; intros slots i e0 Hi Hfail.
  - by apply elem_of_nil in Hi.
  - cbn [gather_run].
    destruct (tasks !! k) as [[e|html]|] eqn:Hk.
    + by exists e, k.
    + apply elem_of_cons in Hi as [->|Hi]; [congruence |]. by eapply IH.
    + apply elem_of_cons in Hi as [->|Hi]; [congruence |]. by eapply IH.
Qed.

(** When some task ends with an exception, [gather] raises the exception
    of one of the tasks. *)
Lemma gather_fails schedule tasks i e0 :
  tasks !! i = Some (inl e0) ->
  exists e j, gather schedule tasks = inl e /\ tasks !! j = Some (inl e).
Proof.
  intros Hfail. unfold gather.
  destruct (gather_run_fail tasks (schedule ++ seq 0 (length tasks))
              (replicate (length tasks) None) i e0) as (e & j & Hrun & Hj);
    [| done |].
  - apply elem_of_app. right. apply elem_of_seq.
    apply lookup_lt_Some in Hfail. split; [lia | exact Hfail].
  - exists e, j. by rewrite Hrun.
Qed.

(** ** The page loop and the whole run *)

Lemma lift_run {A} (r : result A) w : lift r w = (w, r).
Proof. done. Qed.

Section RunFacts.

Variable BeautifulSoup : string -> Soup.node.
Variable urljoin : string -> string -> result string.
Variable net : nat -> string -> result string.





(** C1, amended -- In a run in which the fetch of some page fails, the
    batch is aborted: the exception of a page that failed is printed last,
    and neither the workbook nor the archive is written, so the rows of
    the pages that were fetched are dropped. *)
Theorem fetch_failure_aborts schedule w w1 page_urls urls i url e0 :
  get_pages_url BeautifulSoup net w = (w1, inr page_urls) ->
  traverse (urljoin BASE_URL) page_urls = inr urls ->
  urls !! i = Some url ->
  net (S i) url = inl e0 ->
  exists w2 e j u,
    extract BeautifulSoup urljoin net schedule w = (w2, inr tt) /\
    urls !! j = Some u /\ net (S j) u = inl e /\
    last (stdout w2) = Some (AnErrorOccurred e) /\
    excel_file w2 = excel_file w /\ output_zip w2 = output_zip w /\
    heap w2 = heap w.
Proof.
  intros Hdisc Hjoin Hurl Hfail.
  destruct (gather_fails schedule
              (imap (fun i url => fetch_page net (S i) url) urls) i e0)
    as (e & j & Hgather & Hj).
  { rewrite list_lookup_imap, Hurl. cbn. unfold fetch_page. by rewrite Hfail. }
  rewrite list_lookup_imap in Hj.
  destruct (urls !! j) as [u|] eqn:Hu; [| done].
  cbn in Hj. unfold fetch_page in Hj.
  destruct (get_pages_url_frame BeautifulSoup net w)
    as (w1' & urls' & Hrun & Hh & Hz & Hx).
  rewrite Hdisc in Hrun. injection Hrun as <- _.
  exists (set_stdout (stdout w1 ++ [TotalPagesFound page_urls; AnErrorOccurred e]) w1),
    e, j, u.
  split; [| split; [done | split; [congruence | split; [| done]]]].
  - unfold extract. erewrite try_raise; cycle 1.
    + erewrite bind_ok; [| exact Hdisc].
      erewrite bind_ok; [| reflexivity].
      erewrite bind_ok; [| by rewrite lift_run, Hjoin].
      erewrite bind_raise; [reflexivity |].
      by rewrite lift_run, Hgather.
    + unfold print, set_stdout. cbn. by rewrite <- app_assoc.
  - cbn. change [TotalPagesFound page_urls; AnErrorOccurred e]
      with ([TotalPagesFound page_urls] ++ [AnErrorOccurred e]).
    rewrite app_assoc. apply last_snoc.
Qed.

End RunFacts.

(** C1, as worded, fails: of three pages the second cannot be fetched; the
    pages 1 and 3 have rows, and no workbook is written at all. *)
Lemma page_failure_counterexample :
  let w := (extract Site.parser Site.join Site.net_page2_down [] empty_world).1 in
  excel_file w = None /\ output_zip w = None /\
  stdout w = [TotalPagesFound ["p1"; "p2"; "p3"];
              AnErrorOccurred (ClientError "page 2")] /\
  rows_of_page Site.parser "p1" ++ rows_of_page Site.parser "p3"
  = [["Boston Bruins"; "44"]; ["Buffalo Sabres"; "31"]; ["Chicago Blackhawks"; "49"]].
Proof. repeat split; reflexivity. Qed.

Lemma fetch_failure_aborts_witness :
  exists w2 e j u,
    extract Site.parser Site.join Site.net_page2_down [0; 2; 1]%nat empty_world
    = (w2, inr tt) /\
    ["p1"; "p2"; "p3"] !! j = Some u /\ Site.net_page2_down (S j) u = inl e /\
    last (stdout w2) = Some (AnErrorOccurred e) /\
    excel_file w2 = excel_file empty_world /\
    output_zip w2 = output_zip empty_world /\
    heap w2 = heap empty_world.
Proof.
  apply (fetch_failure_aborts Site.parser Site.join Site.net_page2_down
           [0; 2; 1]%nat empty_world empty_world ["p1"; "p2"; "p3"]
           ["p1"; "p2"; "p3"] 1%nat "p2" (ClientError "page 2"));
    reflexivity.
Defined.




(** * Further properties *)

(** ** Pages without a table, and the archive *)

Section PageFacts.

Variable BeautifulSoup : string -> Soup.node.
Variable urljoin : string -> string -> result string.
Variable net : nat -> string -> result string.

Lemma get_html_table_none html (rows : loc) w :
  Soup.find is_table (BeautifulSoup html) = None ->
  get_html_table BeautifulSoup html rows w
  = (set_stdout (stdout w ++ [AnErrorOccurred AttributeError]) w, inr None).
Proof. intros Hnone. unfold get_html_table. by rewrite Hnone. Qed.

(** X1 -- On a page that has no table, [get_html_table] prints the
    exception raised by the call on [None] and returns [None]; the list it
    was given is left as it was, whatever it held. *)
Theorem get_html_table_without_table html (rows : loc) w :
  Soup.find is_table (BeautifulSoup html) = None ->
  exists w',
    get_html_table BeautifulSoup html rows w = (w', inr None) /\
    stdout w' = stdout w ++ [AnErrorOccurred AttributeError] /\
    heap w' = heap w /\ output_zip w' = output_zip w /\
    excel_file w' = excel_file w.
Proof.
  intros Hnone. rewrite get_html_table_none by done.
  eexists. split; [done |]. done.
Qed.

Lemma set_world_same w z (old : list row) r :
  heap w !! r = Some old -> output_zip w = Some z ->
  set_output_zip (Some (z ++ [])) (set_heap (<[r := old ++ []]> (heap w)) w) = w.
Proof.
  intros Hold Hz. rewrite !app_nil_r, insert_id by done.
  destruct w. cbn in *. by subst.
Qed.

Lemma archive_of_cons n html pages :
  archive_of n (html :: pages) = (pretty n +:+ ".html", html) :: archive_of (S n) pages.
Proof.
  unfold archive_of. cbn. rewrite Nat.add_0_r. f_equal.
  apply imap_ext. intros i x _. cbn. by rewrite Nat.add_succ_r.
Qed.

(** The loop over pages that all have their table, with everything it
    leaves behind. *)
Lemma page_loop_run pages : forall n st w (old : list row) z,
  Forall (parses BeautifulSoup) pages ->
  heap w !! rows st = Some old ->
  output_zip w = Some z ->
  page_loop BeautifulSoup pages n st w
  = (set_output_zip (Some (z ++ archive_of n pages))
       (set_heap (<[rows st := old ++ concat (rows_of_page BeautifulSoup <$> pages)]>
                    (heap w)) w),
     inr (Locals (rows st)
            (default (headers st) (header_of_page BeautifulSoup <$> last pages))
            (match pages with
             | [] => page_num st
             | _ :: _ => Some (n + length pages - 1)%nat
             end))).
Proof.
  induction pages as [|html pages IH]; intros n st w old z Hparse Hold Hz.
  - cbn. rewrite set_world_same by done. by destruct st.
  - apply Forall_cons in Hparse as [[table Htable] Hparse].
    cbn [page_loop].
    erewrite bind_ok; [| by apply get_html_table_run].
    cbn beta iota. erewrite bind_ok; [| reflexivity].
    erewrite (IH _ _ _ (old ++ page_rows table) (z ++ [(pretty n +:+ ".html", html)]));
      [| done | cbn; apply lookup_insert_eq | cbn; by rewrite Hz].
    rewrite archive_of_cons. unfold set_output_zip, set_heap.
    cbn [heap stdout output_zip excel_file rows headers page_num length].
    f_equal; [f_equal | f_equal; f_equal].
    + rewrite insert_insert_eq. f_equal. cbn [fmap list_fmap concat].
      unfold rows_of_page at 2. rewrite Htable. by rewrite app_assoc.
    + by rewrite <- app_assoc.
    + rewrite last_cons. unfold header_of_page at 2.
      destruct (last pages); cbn; [done |]. by rewrite Htable.
    + destruct pages; cbn [length]; f_equal; lia.
Qed.

(** The loop over a list in two parts. *)
Lemma page_loop_app l1 : forall l2 n st w,
  page_loop BeautifulSoup (l1 ++ l2) n st w
  = match page_loop BeautifulSoup l1 n st w with
    | (w', inr st1) => page_loop BeautifulSoup l2 (n + length l1) st1 w'
    | (w', inl e) => (w', inl e)
    end.
Proof.
  induction l1 as [|html l1 IH]; intros l2 n st w.
  - cbn. by rewrite Nat.add_0_r.
  - cbn [app page_loop]. unfold mbind at 1 3, M_bind at 1 3.
    destruct (get_html_table BeautifulSoup html (rows st) w) as [w1 [e|[[r h]|]]];
      [done | | done].
    unfold mbind, M_bind. cbn [save_html_to_zip].
    rewrite IH. cbn [length]. by rewrite Nat.add_succ_r.
Qed.

(** Once discovery, joining and fetching have gone through, [extract] is
    what is left of it, run under its handler. *)
Lemma extract_fetched schedule w w1 page_urls urls pages :
  get_pages_url BeautifulSoup net w = (w1, inr page_urls) ->
  traverse (urljoin BASE_URL) page_urls = inr urls ->
  imap (fun i url => net (S i) url) urls = inr <$> pages ->
  extract BeautifulSoup urljoin net schedule w
  = try_except (after_fetch BeautifulSoup pages)
      (fun e => print (AnErrorOccurred e))
      (set_stdout (stdout w1 ++ [TotalPagesFound page_urls]) w1).
Proof.
  intros Hdisc Hjoin Hnet. unfold extract.
  set (body := (get_pages_url BeautifulSoup net ≫= _)).
  assert (Hbody : body w = after_fetch BeautifulSoup pages
                             (set_stdout (stdout w1 ++ [TotalPagesFound page_urls]) w1)).
  { unfold body.
    erewrite bind_ok; [| exact Hdisc].
    erewrite bind_ok; [| reflexivity].
    erewrite bind_ok; [| by rewrite lift_run, Hjoin].
    erewrite bind_ok;
      [| unfold fetch_page; by rewrite lift_run, Hnet, gather_all_ok].
    reflexivity. }
  unfold try_except. by rewrite Hbody.
Qed.

(** The rest of [extract] over pages that all have their table. *)
Lemma after_fetch_run pages w :
  Forall (parses BeautifulSoup) pages ->
  after_fetch BeautifulSoup pages w
  = let all_rows := concat (rows_of_page BeautifulSoup <$> pages) in
    let w' :=
      World (<[fresh (dom (heap w)) := all_rows]> (heap w))
        (stdout w ++ [ExcelFileCreated])
        (Some (archive_of 1 pages))
        (Some (default [] (header_of_page BeautifulSoup <$> last pages), all_rows)) in
    match pages with
    | [] => (w', inl UnboundLocalError)
    | _ :: _ => (set_stdout (stdout w' ++ [Scraped (length pages)]) w', inr tt)
    end.
Proof.
  intros Hparse. unfold after_fetch.
  erewrite bind_ok; [| reflexivity].
  erewrite bind_ok; [| reflexivity].
  erewrite bind_ok; cycle 1.
  { apply (page_loop_run pages 1 _ _ [] []); [done | apply lookup_insert_eq | done]. }
  erewrite bind_ok; [| reflexivity].
  cbn [rows headers page_num app].
  unfold deref, set_excel_file, set_stdout, set_output_zip, set_heap, print.
  cbn [heap stdout output_zip excel_file].
  rewrite lookup_insert_eq, insert_insert_eq. cbn [default].
  destruct pages as [|p pages]; [done |].
  cbn [length]. replace (1 + S (length pages) - 1)%nat with (S (length pages)) by lia.
  done.
Qed.

(** X2 -- In a run in which every page is fetched and has its table, the
    archive ends up with one member per page, in the order of discovery,
    page number [k] (from 1) stored under the name [k.html] with the text
    that was fetched. *)
Theorem extract_archives_pages schedule w w1 page_urls urls pages :
  get_pages_url BeautifulSoup net w = (w1, inr page_urls) ->
  traverse (urljoin BASE_URL) page_urls = inr urls ->
  imap (fun i url => net (S i) url) urls = inr <$> pages ->
  Forall (parses BeautifulSoup) pages ->
  output_zip (extract BeautifulSoup urljoin net schedule w).1
  = Some (archive_of 1 pages).
Proof.
  intros Hdisc Hjoin Hnet Hparse.
  rewrite (extract_fetched schedule w w1 page_urls urls pages) by done.
  unfold try_except. rewrite after_fetch_run by done.
  by destruct pages.
Qed.


(** X4 -- When discovery finds no page, [extract] still creates the
    archive and the workbook, both empty, and then fails on the page count
    it never assigned: the last thing printed is that exception, after the
    message that the workbook was created. *)
Theorem extract_without_pages schedule w w1 :
  get_pages_url BeautifulSoup net w = (w1, inr []) ->
  exists w',
    extract BeautifulSoup urljoin net schedule w = (w', inr tt) /\
    stdout w' = stdout w1 ++ [TotalPagesFound []; ExcelFileCreated;
                              AnErrorOccurred UnboundLocalError] /\
    output_zip w' = Some [] /\ excel_file w' = Some ([], []).
Proof.
  intros Hdisc.
  rewrite (extract_fetched schedule w w1 [] [] []) by done.
  unfold try_except. rewrite after_fetch_run by constructor.
  eexists. split; [reflexivity |]. cbn. by rewrite <- !app_assoc.
Qed.

(** X5 -- When every page is fetched and one of them has no table, the run
    stops at that page: the pages before it are in the archive, it is not,
    and no workbook is written.  Two exceptions are printed, the one raised
    inside [get_html_table] and the one raised by unpacking its result. *)
Theorem extract_page_without_table schedule w w1 page_urls urls good bad rest :
  get_pages_url BeautifulSoup net w = (w1, inr page_urls) ->
  traverse (urljoin BASE_URL) page_urls = inr urls ->
  imap (fun i url => net (S i) url) urls = inr <$> (good ++ bad :: rest) ->
  Forall (parses BeautifulSoup) good ->
  Soup.find is_table (BeautifulSoup bad) = None ->
  exists w',
    extract BeautifulSoup urljoin net schedule w = (w', inr tt) /\
    stdout w' = stdout w1 ++ [TotalPagesFound page_urls;
                              AnErrorOccurred AttributeError;
                              AnErrorOccurred TypeError] /\
    output_zip w' = Some (archive_of 1 good) /\
    excel_file w' = excel_file w.
Proof.
  intros Hdisc Hjoin Hnet Hparse Hbad.
  rewrite (extract_fetched schedule w w1 page_urls urls (good ++ bad :: rest)) by done.
  destruct (get_pages_url_frame BeautifulSoup net w) as (w1' & ? & Hrun & _ & _ & Hx).
  rewrite Hdisc in Hrun. injection Hrun as <- _.
  unfold try_except, after_fetch.
  erewrite bind_ok; [| reflexivity].
  erewrite bind_ok; [| reflexivity].
  erewrite bind_raise; cycle 1.
  { rewrite page_loop_app.
    erewrite (page_loop_run good 1 _ _ [] []);
      [| done | apply lookup_insert_eq | done].
    cbn [page_loop rows].
    erewrite bind_ok; [| by apply get_html_table_none].
    reflexivity. }
  eexists. split; [reflexivity |]. cbn. rewrite <- !app_assoc. done.
Qed.

(** X6 -- When a discovered locator cannot be joined to the base locator,
    [extract] stops before any page is fetched: it prints the locators found
    and the exception, and changes nothing else. *)
Theorem extract_join_raises schedule w w1 page_urls e :
  get_pages_url BeautifulSoup net w = (w1, inr page_urls) ->
  traverse (urljoin BASE_URL) page_urls = inl e ->
  extract BeautifulSoup urljoin net schedule w
  = (set_stdout (stdout w1 ++ [TotalPagesFound page_urls; AnErrorOccurred e]) w1,
     inr tt).
Proof.
  intros Hdisc Hjoin. unfold extract. erewrite try_raise; cycle 1.
  - erewrite bind_ok; [| exact Hdisc].
    erewrite bind_ok; [| reflexivity].
    erewrite bind_raise; [reflexivity |].
    by rewrite lift_run, Hjoin.
  - unfold print, set_stdout. cbn. by rewrite <- app_assoc.
Qed.

End PageFacts.

(** ** More on discovery *)

Section LinkFacts.

Variable BeautifulSoup : string -> Soup.node.
Variable net : nat -> string -> result string.

Lemma traverse_getitem_missing key l :
  Exists (fun a => Soup.get key a = None) l ->
  traverse (Soup.getitem key) l = inl KeyError.
Proof.
  induction l as [|a l IH]; intros Hex; [by apply Exists_nil in Hex |].
  cbn [traverse]. apply Exists_cons in Hex as [Hex|Hex].
  - unfold Soup.getitem. by rewrite Hex.
  - rewrite IH by done.
    destruct (Soup.getitem key a) as [e|v] eqn:E; [| done].
    unfold Soup.getitem in E. destruct (Soup.get key a); by inversion E.
Qed.

(** X7 -- When one link of the pagination control that carries no
    [aria-label] has no [href] either, discovery loses every link: it prints
    the [KeyError] and returns the empty sequence. *)
Theorem discovery_bare_anchor w html pagination :
  net 0%nat BASE_URL = inr html ->
  Soup.find is_pagination (BeautifulSoup html) = Some pagination ->
  Exists (fun a => Soup.get "href" a = None)
    (Soup.find_all is_page_link pagination) ->
  get_pages_url BeautifulSoup net w
  = (set_stdout (stdout w ++ [AnErrorOccurred KeyError]) w, inr []).
Proof.
  intros Hnet Hp Hbare. rewrite get_pages_url_run, Hnet, Hp.
  by rewrite traverse_getitem_missing.
Qed.

(** X8 -- Whatever the landing page, every locator that discovery returns
    is the [href] of an [a] element that lies below the pagination control
    and carries no [aria-label]: links marked as previous or next, and links
    outside the control, are never returned. *)
Theorem discovery_only_unlabelled_links w w1 page_urls u :
  get_pages_url BeautifulSoup net w = (w1, inr page_urls) ->
  u ∈ page_urls ->
  exists html pagination a,
    net 0%nat BASE_URL = inr html /\
    Soup.find is_pagination (BeautifulSoup html) = Some pagination /\
    a ∈ Soup.descendants pagination /\
    Soup.tag_name a = Some "a" /\
    Soup.get "aria-label" a = None /\
    Soup.get "href" a = Some u.
Proof.
  rewrite get_pages_url_run. intros Hrun Hu.
  destruct (net 0%nat BASE_URL) as [e|html] eqn:Hnet;
    [injection Hrun as _ <-; by apply elem_of_nil in Hu |].
  destruct (Soup.find is_pagination (BeautifulSoup html)) as [p|] eqn:Hp;
    [| injection Hrun as _ <-; by apply elem_of_nil in Hu].
  destruct (traverse _ _) as [e|urls] eqn:Ht;
    [injection Hrun as _ <-; by apply elem_of_nil in Hu |].
  injection Hrun as _ <-.
  apply traverse_inr in Ht.
  apply list_elem_of_lookup in Hu as [i Hi].
  destruct (Forall2_lookup_r _ _ _ _ _ Ht Hi) as (a & Ha & Hget).
  apply list_elem_of_lookup_2 in Ha.
  unfold Soup.find_all in Ha.
  apply list_elem_of_In, filter_In in Ha as [Ha Hlink].
  apply list_elem_of_In in Ha.
  unfold is_page_link in Hlink. apply andb_true_iff in Hlink as [Hname Hlab].
  exists html, p, a. repeat split; try done.
  - unfold Soup.named in Hname. destruct (Soup.tag_name a) as [nm|]; [| done].
    apply bool_decide_eq_true in Hname. by subst.
  - unfold Soup.lacks in Hlab. by destruct (Soup.get "aria-label" a).
  - unfold Soup.getitem in Hget. destruct (Soup.get "href" a); by inversion Hget.
Qed.

End LinkFacts.

(** ** More on the aggregation *)

Lemma index_missing x l : x ∉ l -> index x l = inl ValueError.
Proof.
  induction l as [|y l IH]; intros Hx; [done |].
  apply not_elem_of_cons in Hx as [Hne Hx]. cbn [index].
  rewrite decide_False by congruence. by rewrite IH.
Qed.

Lemma index_error x l e : index x l = inl e -> e = ValueError.
Proof.
  induction l as [|y l IH]; cbn [index]; [by intros [= <-] |].
  destruct (decide (y = x)); [done |].
  destruct (index x l) as [e'|i]; cbn; [| done].
  intros [= <-]. by apply IH.
Qed.

Lemma index_found x l : x ∈ l -> exists i, index x l = inr i.
Proof.
  induction l as [|y l IH]; intros Hx; [by apply elem_of_nil in Hx |].
  cbn [index]. destruct (decide (y = x)) as [->|Hne]; [by eexists |].
  apply elem_of_cons in Hx as [->|Hx]; [done |].
  destruct (IH Hx) as [i ->]. by eexists.
Qed.


Lemma summary_read ws out :
  summary ws = inr out -> exists ts, read_sheet ws = inr ts.
Proof.
  unfold summary, read_sheet.
  destruct (index (VStr "Year") (hd [] ws)) as [|yi]; cbn; [done |].
  destruct (index (VStr "Team Name") (hd [] ws)) as [|ti]; cbn; [done |].
  destruct (index (VStr "Wins") (hd [] ws)) as [|wi]; cbn; [done |].
  destruct (process_rows yi ti wi (tl ws) []) as [|stats] eqn:Hp; cbn; [done |].
  intros _. apply process_rows_inv in Hp as [ts ->]. by eexists.
Qed.

Lemma extremum_elem better key ks : forall cur r,
  extremum better key ks cur = inr r -> r ∈ cur :: ks.
Proof.
  induction ks as [|k ks IH]; intros cur r; cbn [extremum].
  - intros [= ->]. apply list_elem_of_here.
  - destruct (better (key k) (key cur)) as [e|c]; cbn; [done |].
    intros Hr%IH. by apply (choice_sub better key c).
Qed.

(** A row that was emitted names two entries of its group. *)
Lemma summary_row_inv year teams r :
  summary_row (year, teams) = inr r ->
  exists w wv l lv,
    r = [year; w; wv; l; lv] /\ (w, wv) ∈ teams /\ (l, lv) ∈ teams.
Proof.
  unfold summary_row.
  destruct (py_max teams) as [|w]; cbn; [done |].
  destruct (py_min teams) as [|l]; cbn; [done |].
  unfold teams_item.
  destruct (dict_get w teams) as [wv|] eqn:Hw; cbn; [| done].
  destruct (dict_get l teams) as [lv|] eqn:Hl; cbn; [| done].
  intros [= <-]. exists w, wv, l, lv.
  split; [done |]. split; by apply dict_get_Some_elem.
Qed.

(** X9 -- Whenever the aggregation succeeds, whatever the cells hold, the
    second sheet is the fixed header followed by one row per distinct year,
    in the order in which the years first occur; each row has five cells,
    and its winner and its loser, with their wins, are cells of rows of that
    year. *)
Theorem summary_shape ws out :
  summary ws = inr out ->
  exists ts rows,
    read_sheet ws = inr ts /\ out = sheet_2_header :: rows /\
    Forall2 (fun year r => exists w wv l lv,
               r = [year; w; wv; l; lv] /\ (year, w, wv) ∈ ts /\ (year, l, lv) ∈ ts)
      (first_seen (year_of <$> ts)) rows.
Proof.
  intros Hsum. destruct (summary_read ws out Hsum) as [ts Hread].
  rewrite (read_sheet_summary ws ts Hread) in Hsum.
  destruct (traverse summary_row (build ts)) as [|rows] eqn:Ht; cbn in Hsum; [done |].
  injection Hsum as <-. exists ts, rows. split; [done |]. split; [done |].
  apply traverse_inr in Ht. rewrite build_char in Ht.
  apply Forall2_fmap_l in Ht. eapply Forall2_impl; [exact Ht |].
  intros y r Hrow. cbn in Hrow.
  apply summary_row_inv in Hrow as (w & wv & l & lv & -> & Hw & Hl).
  exists w, wv, l, lv. split; [done |].
  split; by apply group_of_elem, dict_of_elem.
Qed.

Lemma summary_shape_witness :
  exists ts rows,
    read_sheet Fixture.sheet_widths = inr ts /\
    [sheet_2_header; [VStr "1990"; VStr "A"; VStr "9"; VStr "B"; VStr "10"]]
    = sheet_2_header :: rows /\
    Forall2 (fun year r => exists w wv l lv,
               r = [year; w; wv; l; lv] /\ (year, w, wv) ∈ ts /\ (year, l, lv) ∈ ts)
      (first_seen (year_of <$> ts)) rows.
Proof.
  apply (summary_shape Fixture.sheet_widths). reflexivity.
Defined.

(** X10 -- The columns are found by name: two sheets that give the same
    (year, team, wins) triples, whatever the order of their columns and
    whatever other columns they have, give the same second sheet. *)
Theorem summary_by_name ws ws' ts :
  read_sheet ws = inr ts ->
  read_sheet ws' = inr ts ->
  summary ws = summary ws'.
Proof.
  intros H H'. by rewrite (read_sheet_summary ws ts), (read_sheet_summary ws' ts).
Qed.

Lemma summary_by_name_witness :
  summary More.sheet_plain = summary More.sheet_reordered.
Proof.
  apply (summary_by_name More.sheet_plain More.sheet_reordered
           (Fixture.rows_of More.sheet_plain)); reflexivity.
Defined.

(** X11 -- When the header has no cell [Year], no cell [Team Name] or no
    cell [Wins], [transform] prints the [ValueError] of the failed lookup
    and leaves the workbook file as it was: no second sheet is added. *)
Theorem transform_missing_column wb ws :
  dict_get SHEET_1_NAME wb = Some ws ->
  VStr "Year" ∉ hd [] ws \/ VStr "Team Name" ∉ hd [] ws \/ VStr "Wins" ∉ hd [] ws ->
  transform (Some wb) = (Some wb, ErrorOccurred ValueError).
Proof.
  intros Hws Hmiss. rewrite (transform_writes_summary wb ws Hws).
  assert (Hsum : summary ws = inl ValueError); [| by rewrite Hsum].
  unfold summary.
  destruct Hmiss as [Hm|[Hm|Hm]].
  - rewrite (index_missing _ _ Hm). reflexivity.
  - destruct (index (VStr "Year") (hd [] ws)) as [e|yi] eqn:Ey;
      [by apply index_error in Ey as -> |].
    cbn. rewrite (index_missing _ _ Hm). reflexivity.
  - destruct (index (VStr "Year") (hd [] ws)) as [e|yi] eqn:Ey;
      [by apply index_error in Ey as -> |].
    destruct (index (VStr "Team Name") (hd [] ws)) as [e|ti] eqn:Et;
      [by apply index_error in Et as -> |].
    cbn. rewrite (index_missing _ _ Hm). reflexivity.
Qed.

Lemma transform_missing_column_witness :
  transform (Some [(SHEET_1_NAME, More.sheet_no_wins)])
  = (Some [(SHEET_1_NAME, More.sheet_no_wins)], ErrorOccurred ValueError).
Proof.
  apply (transform_missing_column _ More.sheet_no_wins).
  - reflexivity.
  - right. right. apply (bool_decide_unpack _). vm_compute. exact I.
Defined.



(** ** Cells of unlike kinds *)

Lemma same_kind_sym a b : same_kind a b = same_kind b a.
Proof. by destruct a, b. Qed.

Lemma same_kind_trans a b c : same_kind a b = true -> same_kind a c = same_kind b c.
Proof. by destruct a, b, c. Qed.

Lemma py_gt_kind a b :
  if same_kind a b then exists c, py_gt a b = inr c else py_gt a b = inl TypeError.
Proof. destruct a, b; cbn; eauto. Qed.

Lemma py_lt_kind a b :
  if same_kind a b then exists c, py_lt a b = inr c else py_lt a b = inl TypeError.
Proof. unfold py_lt. rewrite same_kind_sym. apply py_gt_kind. Qed.

Section Kinds.

Variable better : value -> value -> result bool.
Variable key : value -> value.

Hypothesis better_kind : forall a b,
  if same_kind a b then exists c, better a b = inr c else better a b = inl TypeError.

(** The loop raises as soon as it meets a value of another kind. *)
Lemma extremum_kind_error ks : forall cur,
  Exists (fun k => same_kind (key cur) (key k) = false) ks ->
  extremum better key ks cur = inl TypeError.
Proof.
  induction ks as [|k ks IH]; intros cur Hex; [by apply Exists_nil in Hex |].
  cbn [extremum]. pose proof (better_kind (key k) (key cur)) as Hk.
  destruct (same_kind (key k) (key cur)) eqn:Ek; [| by rewrite Hk].
  destruct Hk as [c ->]. cbn. apply IH.
  apply Exists_cons in Hex as [Hex|Hex]; [by rewrite same_kind_sym, Ek in Hex |].
  destruct c; [| done].
  eapply Exists_impl; [exact Hex |]. intros k' Hk'. cbn in Hk'.
  by rewrite (same_kind_trans _ _ _ Ek).
Qed.

Lemma extremum_kind_ok ks cur :
  ks <> [] ->
  Forall (fun k => same_kind (key cur) (key k) = true) ks ->
  exists r, extremum better key ks cur = inr r /\ r ∈ cur :: ks.
Proof.
  intros Hne Hall. apply extremum_total.
  assert (Hcur : same_kind (key cur) (key cur) = true).
  { destruct ks as [|k ks]; [done |]. apply Forall_cons in Hall as [Hk _].
    by rewrite (same_kind_trans _ _ _ Hk), same_kind_sym. }
  assert (Hin : forall a, a ∈ cur :: ks -> same_kind (key cur) (key a) = true).
  { intros a [->|Ha]%elem_of_cons; [done |].
    rewrite Forall_forall in Hall. by apply Hall. }
  intros a b Ha%Hin Hb%Hin.
  pose proof (better_kind (key a) (key b)) as Hab.
  rewrite <- (same_kind_trans _ _ _ Ha), Hb in Hab. done.
Qed.

End Kinds.

Lemma forallb_false {A} (f : A -> bool) l :
  forallb f l = false -> Exists (fun x => f x = false) l.
Proof.
  induction l as [|x l IH]; cbn; [done |].
  destruct (f x) eqn:Ex; cbn; [| by left].
  intros H. right. by apply IH.
Qed.

Lemma comparable_keys (teams : teams_t) k0 v0 rest :
  teams = (k0, v0) :: rest -> NoDup teams.*1 ->
  comparable teams
  = forallb (fun k => same_kind (teams_get teams k0) (teams_get teams k)) rest.*1.
Proof.
  intros -> Hnd. unfold comparable. cbn [fmap list_fmap snd fst].
  rewrite (teams_get_entry _ k0 v0); [| done | apply list_elem_of_here].
  assert (Hrest : forall p, p ∈ rest ->
            teams_get ((k0, v0) :: rest) p.1 = p.2).
  { intros [k v] Hp. apply teams_get_entry; [done |]. by apply list_elem_of_further. }
  revert Hrest. generalize ((k0, v0) :: rest) as T. intros T.
  clear Hnd. induction rest as [|p rest IH]; intros Hrest; [done |].
  cbn [fmap list_fmap forallb]. rewrite Hrest by apply list_elem_of_here.
  f_equal. apply IH. intros q Hq. apply Hrest. by apply list_elem_of_further.
Qed.

(** X13 -- The row of a year is computed exactly when that year has a
    single team, or wins that are all numbers, or wins that are all texts.
    Otherwise, a number beside a text, or an empty cell beside anything,
    the comparison raises and the row is a [TypeError]. *)
Theorem group_needs_one_kind year (teams : teams_t) :
  NoDup teams.*1 ->
  teams <> [] ->
  if comparable teams
  then exists w wv l lv, summary_row (year, teams) = inr [year; w; wv; l; lv]
  else summary_row (year, teams) = inl TypeError.
Proof.
  intros Hnd Hne.
  destruct teams as [|[k0 v0] rest] eqn:Et; [done |]. rewrite <- Et in *.
  assert (Ek : teams.*1 = k0 :: rest.*1) by (by rewrite Et).
  rewrite (comparable_keys teams k0 v0 rest Et Hnd).
  unfold summary_row, py_max, py_min. rewrite Ek.
  destruct (forallb _ rest.*1) eqn:Hall.
  - destruct rest as [|p rest'] eqn:Er.
    + cbn. rewrite !teams_item_key by (rewrite Ek; apply list_elem_of_here).
      cbn. eauto.
    + rewrite <- Er in *.
      assert (Hks : rest.*1 <> []) by (by rewrite Er).
      pose proof (proj1 (forallb_forall _ _) Hall) as Hall'.
      assert (HF : Forall (fun k => same_kind (teams_get teams k0) (teams_get teams k) = true)
                     rest.*1).
      { apply Forall_forall. intros k Hk. apply Hall'. by apply list_elem_of_In. }
      destruct (extremum_kind_ok py_gt (teams_get teams) py_gt_kind rest.*1 k0 Hks HF)
        as (w & -> & Hw).
      destruct (extremum_kind_ok py_lt (teams_get teams) py_lt_kind rest.*1 k0 Hks HF)
        as (l & -> & Hl).
      cbn. rewrite <- Ek in Hw, Hl. rewrite !teams_item_key by done.
      cbn. eauto.
  - rewrite (extremum_kind_error py_gt (teams_get teams) py_gt_kind); [done |].
    by apply forallb_false in Hall.
Qed.

Lemma group_needs_one_kind_witness :
  summary_row (VStr "1990", More.teams_mixed) = inl TypeError.
Proof.
  refine (group_needs_one_kind (VStr "1990") More.teams_mixed _ _).
  - apply (bool_decide_unpack _). vm_compute. exact I.
  - discriminate.
Defined.

(** ** The workbook file *)








(** ** The further properties on the example site *)

Lemma get_html_table_without_table_witness :
  exists w',
    get_html_table Site.parser "blank" 1%positive empty_world = (w', inr None) /\
    stdout w' = stdout empty_world ++ [AnErrorOccurred AttributeError] /\
    heap w' = heap empty_world /\ output_zip w' = output_zip empty_world /\
    excel_file w' = excel_file empty_world.
Proof.
  apply (get_html_table_without_table Site.parser "blank" 1%positive empty_world).
  reflexivity.
Defined.

Lemma extract_archives_pages_witness :
  output_zip (extract Site.parser Site.join Site.net_up [1; 0]%nat empty_world).1
  = Some (archive_of 1 ["p1"; "p2"; "p3"]).
Proof.
  apply (extract_archives_pages Site.parser Site.join Site.net_up [1; 0]%nat
           empty_world empty_world ["p1"; "p2"; "p3"] ["p1"; "p2"; "p3"]);
    try reflexivity.
  repeat constructor; eexists; reflexivity.
Defined.


Lemma extract_without_pages_witness :
  exists w',
    extract Site.parser Site.join More.net_plain [] empty_world = (w', inr tt) /\
    stdout w' = stdout empty_world ++
                [TotalPagesFound []; ExcelFileCreated;
                 AnErrorOccurred UnboundLocalError] /\
    output_zip w' = Some [] /\ excel_file w' = Some ([], []).
Proof.
  apply (extract_without_pages Site.parser Site.join More.net_plain []
           empty_world empty_world).
  reflexivity.
Defined.

Lemma extract_page_without_table_witness :
  exists w',
    extract Site.parser Site.join More.net_page2_blank [] empty_world = (w', inr tt) /\
    stdout w' = stdout empty_world ++
                [TotalPagesFound ["p1"; "p2"; "p3"];
                 AnErrorOccurred AttributeError; AnErrorOccurred TypeError] /\
    output_zip w' = Some (archive_of 1 ["p1"]) /\
    excel_file w' = excel_file empty_world.
Proof.
  apply (extract_page_without_table Site.parser Site.join More.net_page2_blank []
           empty_world empty_world ["p1"; "p2"; "p3"] ["p1"; "p2"; "p3"]
           ["p1"] "blank" ["p3"]); try reflexivity.
  repeat constructor; eexists; reflexivity.
Defined.

Lemma extract_join_raises_witness :
  extract Site.parser More.join_p2_bad Site.net_up [] empty_world
  = (set_stdout (stdout empty_world ++
                   [TotalPagesFound ["p1"; "p2"; "p3"]; AnErrorOccurred ValueError])
       empty_world, inr tt).
Proof.
  apply (extract_join_raises Site.parser More.join_p2_bad Site.net_up []
           empty_world empty_world ["p1"; "p2"; "p3"] ValueError); reflexivity.
Defined.

Lemma discovery_bare_anchor_witness :
  get_pages_url Site.parser Site.net_bare empty_world
  = (set_stdout (stdout empty_world ++ [AnErrorOccurred KeyError]) empty_world, inr []).
Proof.
  eapply (discovery_bare_anchor Site.parser Site.net_bare empty_world "bare").
  - reflexivity.
  - reflexivity.
  - unfold Soup.find_all. cbn.
    apply Exists_cons_tl, Exists_cons_hd. reflexivity.
Defined.

Lemma discovery_only_unlabelled_links_witness :
  exists html pagination a,
    Site.net_up 0%nat BASE_URL = inr html /\
    Soup.find is_pagination (Site.parser html) = Some pagination /\
    a ∈ Soup.descendants pagination /\
    Soup.tag_name a = Some "a" /\
    Soup.get "aria-label" a = None /\
    Soup.get "href" a = Some "p2".
Proof.
  apply (discovery_only_unlabelled_links Site.parser Site.net_up
           empty_world empty_world ["p1"; "p2"; "p3"] "p2").
  - reflexivity.
  - apply list_elem_of_further, list_elem_of_here.
Defined.

(** ** Winner against loser *)

Lemma first_greatest_head {A} (f : A -> Z) l r :
  first_greatest f l r ->
  (forall x, x ∈ l -> (f r <= f x)%Z) ->
  exists l', l = r :: l'.
Proof.
  intros (l1 & l2 & -> & H1 & _) Hall.
  destruct l1 as [|x l1]; [by eexists |].
  apply Forall_cons in H1 as [Hx _].
  specialize (Hall x (list_elem_of_here _ _)). lia.
Qed.

(** X16 -- On a sheet whose wins cells are all stored integers, or all
    numerals of one width, no row names a loser with more wins than its
    winner; and when the two have the same wins, the row names one team
    twice, as winner and as loser. *)
Theorem loser_not_above_winner ws ts :
  read_sheet ws = inr ts ->
  numeric_column (wins_of <$> ts) ->
  exists out, summary ws = inr (sheet_2_header :: out) /\
    Forall (fun r => exists year w wv l lv,
              r = [year; w; wv; l; lv] /\
              (num lv <= num wv)%Z /\
              (num lv = num wv -> w = l)) out.
Proof.
  intros Hread Hnum. rewrite (read_sheet_summary ws ts Hread).
  set (Q := fun r : list value => exists year w wv l lv,
              r = [year; w; wv; l; lv] /\
              (num lv <= num wv)%Z /\
              (num lv = num wv -> w = l)).
  destruct (traverse_Forall summary_row (fun _ r => Q r) (build ts))
    as (out & Hout & HF).
  { apply Forall_forall. intros [y teams] Hg.
    destruct (build_groups ts _ Hg) as (Hy & Eg & Hne & Hnd & Hcells). cbn in *.
    destruct (summary_row_numeric (wins_of <$> ts) y teams Hne Hnd Hnum)
      as (w & wv & l & lv & Hrow & Hw & Hl).
    { intros [k v] Hp. apply list_elem_of_fmap. exists (y, k, v).
      split; [done | by apply Hcells]. }
    exists [y; w; wv; l; lv]. split; [done |].
    exists y, w, wv, l, lv. split; [done |].
    pose proof (first_greatest_elem _ _ _ Hw) as Hwin.
    pose proof (first_greatest_elem _ _ _ Hl) as Hlin.
    pose proof (first_greatest_ge _ _ _ _ Hw Hlin) as Hle. cbn in Hle.
    split; [done |]. intros Heq.
    destruct (first_greatest_head _ _ _ Hw) as [t1 E1].
    { intros x Hx. pose proof (first_greatest_ge _ _ _ _ Hl Hx) as Hx'.
      cbn in Hx' |- *. lia. }
    destruct (first_greatest_head _ _ _ Hl) as [t2 E2].
    { intros x Hx. pose proof (first_greatest_ge _ _ _ _ Hw Hx) as Hx'.
      cbn in Hx' |- *. lia. }
    rewrite E1 in E2. by injection E2 as -> _ _. }
  exists out. rewrite Hout. split; [done |]. by apply Forall2_right in HF.
Qed.

Lemma loser_not_above_winner_witness :
  exists out, summary Fixture.sheet_nhl = inr (sheet_2_header :: out) /\
    Forall (fun r => exists year w wv l lv,
              r = [year; w; wv; l; lv] /\
              (num lv <= num wv)%Z /\
              (num lv = num wv -> w = l)) out.
Proof.
  apply (loser_not_above_winner Fixture.sheet_nhl (Fixture.rows_of Fixture.sheet_nhl)).
  - reflexivity.
  - right. exists 2%nat. repeat constructor.
Defined.
